(** * CelestePy: galaxy (single source) conditional distributions and gradients

    A shallow embedding of [CelestePy/celeste_galaxy_conditionals.py].

    Conventions of the embedding.
    - A numpy [float64] is a real number of [R]: the arithmetic is the exact
      one, rounding, overflow, [nan] and [inf] are not represented.  [np.exp],
      [np.log], [np.cos], [np.sin] and [np.pi] are [exp], [ln], [cos], [sin]
      and [PI].  Where the source would produce [nan] or [inf] (the log of a
      non-positive number, a division by zero) the total functions of [R]
      give some number: a theorem then says that the code and the
      specification apply the same operations to the same arguments.
    - A Python exception is a value of [exn]; a function that can raise
      returns a [result], and [x <- c ;; k] sequences two of them.
    - A one-dimensional array is a [list R]; a two-dimensional array is an
      [ndarray]: its shape and its entries by index.  Binary operations on
      two-dimensional arrays follow numpy's broadcasting rule.
    - The dictionaries keyed by band are association lists in insertion
      order.
    - The density image of an image has the shape of its [nelec]
      transposed ([reshape(img.nelec.shape).T]); an array of observed
      counts is combined with it entry by entry only when it has that
      shape.
    - The compiled collaborators that are not part of this module
      ([celeste_fast], [gmm_like_2d], [mixture_profiles],
      [fast_inv_gamma_lnpdf]) are the variables of the section [Galaxy]. *)

From Stdlib Require Import String Reals Lra Lia Bool Arith List.
From Stdlib Require Import Permutation.
Import ListNotations.
Local Open Scope R_scope.

(** ** Exceptions *)

Inductive exn : Type :=
| AssertionError (msg : string)
| ValueError
| IndexError
| KeyError (key : string)
| LinAlgError.

Definition result (A : Type) : Type := (exn + A)%type.

Definition ret {A : Type} (a : A) : result A := inr a.

Definition raise {A : Type} (e : exn) : result A := inl e.

Definition bind {A B : Type} (c : result A) (k : A -> result B) : result B :=
  match c with
  | inl e => inl e
  | inr a => k a
  end.

Notation "x <- c ;; k" := (bind c (fun x => k))
  (at level 61, c at next level, right associativity).

Notation "' pat <- c ;; k" := (bind c (fun x => match x with pat => k end))
  (at level 61, pat pattern, c at next level, right associativity).

(** The message of the assertion of [gen_galaxy_prof_psf_image]. *)
Definition UnknownProfileType : exn :=
  AssertionError "unknown galaxy profile type".

(** ** 2x2 matrices *)

Record mat2 : Type := Mat2 { m00 : R; m01 : R; m10 : R; m11 : R }.

Definition identity : mat2 := Mat2 1 0 0 1.

(** [a * K] for a scalar [a]. *)
Definition mscale (a : R) (K : mat2) : mat2 :=
  Mat2 (a * m00 K) (a * m01 K) (a * m10 K) (a * m11 K).

(** [np.dot(A, B)]. *)
Definition dot (A B : mat2) : mat2 :=
  Mat2 (m00 A * m00 B + m01 A * m10 B) (m00 A * m01 B + m01 A * m11 B)
       (m10 A * m00 B + m11 A * m10 B) (m10 A * m01 B + m11 A * m11 B).

(** [K.T]. *)
Definition transpose (K : mat2) : mat2 :=
  Mat2 (m00 K) (m10 K) (m01 K) (m11 K).

Definition det2d (K : mat2) : R := m00 K * m11 K - m10 K * m01 K.

(** [np.linalg.inv(K)]: the inverse, [LinAlgError] on a singular matrix. *)
Definition linalg_inv (K : mat2) : result mat2 :=
  if Req_dec_T (det2d K) 0 then raise LinAlgError
  else ret (mscale (1 / det2d K)
                   (Mat2 (m11 K) (- m01 K) (- m10 K) (m00 K))).

(** The helper [inv2d] of the source, as it is written: the adjugate it
    scales has its two off-diagonal entries exchanged. *)
Definition inv2d (K : mat2) : mat2 :=
  mscale (1 / det2d K) (Mat2 (m11 K) (- m10 K) (- m01 K) (m00 K)).

(** ** The geometric transform *)

(** The effective radius in degrees, with its floor of 1/30 arcsec. *)
Definition re_deg (sig_s : R) : R := Rmax (1 / 30) sig_s / 3600.

(** [G] takes unit vectors (in r_e) to degrees. *)
Definition galaxy_G (sig_s rho_s phi_s : R) : mat2 :=
  let cp := cos phi_s in
  let sp := sin phi_s in
  mscale (re_deg sig_s) (Mat2 cp (sp * rho_s) (- sp) (cp * rho_s)).

(** [cd] takes pixels to degrees. *)
Definition cd : mat2 := Mat2 (0.396 / 3600) 0 0 (0.396 / 3600).

(** [cd] inverted: degrees to pixels. *)
Definition cd_inv : mat2 := Mat2 (3600 / 0.396) 0 0 (3600 / 0.396).

(** [T] takes pixels to unit vectors (effective radii). *)
Definition galaxy_T (sig_s rho_s phi_s : R) : result mat2 :=
  Ginv <- linalg_inv (galaxy_G sig_s rho_s phi_s) ;;
  ret (dot Ginv cd).

Definition gen_galaxy_transformation (sig_s rho_s phi_s : R) : result mat2 :=
  T <- galaxy_T sig_s rho_s phi_s ;;
  Tinv <- linalg_inv T ;;
  ret Tinv.

(** ** Sequences and one-dimensional arrays *)

(** [l[i]]. *)
Definition getitem {A : Type} (l : list A) (i : nat) : result A :=
  match nth_error l i with
  | Some a => ret a
  | None => raise IndexError
  end.

(** [l[i] = v] on an array. *)
Definition setitem (l : list R) (i : nat) (v : R) : result (list R) :=
  if (i <? length l)%nat then ret (firstn i l ++ v :: skipn (S i) l)
  else raise IndexError.

(** [l[a:b]] for [0 <= a <= b]. *)
Definition slice (l : list R) (a b : nat) : list R :=
  firstn (b - a) (skipn a l).

(** [l[-n:]]: the last [n] entries, all of [l] when it is shorter. *)
Definition last_n (n : nat) (l : list R) : list R :=
  skipn (length l - n) l.

(** [a, b, c, d = l]. *)
Definition unpack4 (l : list R) : result (R * R * R * R) :=
  match l with
  | [a; b; c; d] => ret (a, b, c, d)
  | _ => raise ValueError
  end.

(** [np.zeros(n)]. *)
Definition zeros (n : nat) : list R := repeat 0 n.

(** Entrywise operation on two arrays of one length. *)
Definition vzip (f : R -> R -> R) (a b : list R) : list R :=
  map (fun p => f (fst p) (snd p)) (combine a b).

Definition enumerate {A : Type} (l : list A) : list (nat * A) :=
  combine (seq 0 (length l)) l.

(** ** Two-dimensional arrays *)

Record ndarray : Type :=
  Array2 { nrows : nat; ncols : nat; item : nat -> nat -> R }.

Definition shape (A : ndarray) : nat * nat := (nrows A, ncols A).

(** [sum_upto n f = f 0 + ... + f (n-1)]. *)
Fixpoint sum_upto (n : nat) (f : nat -> R) : R :=
  match n with
  | O => 0
  | S k => sum_upto k f + f k
  end.

(** The sum of [f i j] over a grid of [r] rows and [c] columns. *)
Definition sum_grid (r c : nat) (f : nat -> nat -> R) : R :=
  sum_upto r (fun i => sum_upto c (fun j => f i j)).

(** [np.sum(A)]. *)
Definition np_sum (A : ndarray) : R := sum_grid (nrows A) (ncols A) (item A).

(** A function applied to every entry: [s * A], [A - s], [np.log(A)]. *)
Definition amap (g : R -> R) (A : ndarray) : ndarray :=
  Array2 (nrows A) (ncols A) (fun i j => g (item A i j)).

(** numpy's broadcasting of one dimension: equal extents, or one of them 1. *)
Definition bdim (a b : nat) : result nat :=
  if (a =? b)%nat then ret a
  else if (a =? 1)%nat then ret b
  else if (b =? 1)%nat then ret a
  else raise ValueError.

(** The index read in a dimension of extent [d]. *)
Definition bidx (d i : nat) : nat := if (d =? 1)%nat then O else i.

(** [A op B] on two-dimensional arrays. *)
Definition broadcast (f : R -> R -> R) (A B : ndarray) : result ndarray :=
  r <- bdim (nrows A) (nrows B) ;;
  c <- bdim (ncols A) (ncols B) ;;
  ret (Array2 r c
         (fun i j => f (item A (bidx (nrows A) i) (bidx (ncols A) j))
                       (item B (bidx (nrows B) i) (bidx (ncols B) j)))).

(** [v.reshape((r, c))], row-major. *)
Definition reshape (v : list R) (r c : nat) : result ndarray :=
  if (length v =? r * c)%nat
  then ret (Array2 r c (fun i j => nth (i * c + j) v 0))
  else raise ValueError.

(** [A.T]. *)
Definition arrayT (A : ndarray) : ndarray :=
  Array2 (ncols A) (nrows A) (fun i j => item A j i).

(** ** Dictionaries keyed by strings *)

Definition dict (V : Type) : Type := list (string * V).

Fixpoint has_key {V : Type} (d : dict V) (k : string) : bool :=
  match d with
  | [] => false
  | (k', _) :: d' => if String.eqb k' k then true else has_key d' k
  end.

(** [d[k]]. *)
Fixpoint dict_get {V : Type} (d : dict V) (k : string) : result V :=
  match d with
  | [] => raise (KeyError k)
  | (k', v) :: d' => if String.eqb k' k then ret v else dict_get d' k
  end.

(** [d[k] = v]. *)
Fixpoint dict_set {V : Type} (d : dict V) (k : string) (v : V) : dict V :=
  match d with
  | [] => [(k, v)]
  | (k', v') :: d' =>
      if String.eqb k' k then (k', v) :: d' else (k', v') :: dict_set d' k v
  end.

(** [dict(pairs)]: the pairs inserted from left to right. *)
Definition dict_of {V : Type} (pairs : list (string * V)) : dict V :=
  fold_left (fun d kv => dict_set d (fst kv) (snd kv)) pairs [].

(** ** Images and profiles *)

(** A [FitsImage], with the fields this module reads. *)
Record FitsImage : Type := {
  band : string;
  calib : R;
  kappa : R;
  weights : list R;
  means : list (list R);
  covars : list mat2;
  pixel_grid : list (list R);
  nelec : ndarray
}.

(** A profile of [mixture_profiles]: amplitudes and 2x2 variances. *)
Record MixtureOfGaussians : Type := { amp : list R; var : list mat2 }.

Definition BANDS : list string := ["u"; "g"; "r"; "i"; "z"]%string.

(** ** Parameter transforms and the unconstrained prior *)

Definition galaxy_shape_prior_unconstrained
    (logit_theta log_sig logit_phi logit_rho : R) : R :=
  - (1 / 50) * (logit_theta * logit_theta +
                log_sig * log_sig +
                logit_phi * logit_phi +
                logit_rho * logit_rho).

(** The four values returned stand in a list for the tuple of the source.
    [exp] and [ln] are the exact functions: the rounding of float64, under
    which the sigmoid reaches its end points for large arguments and the
    round trip is only approximate, is not represented, so nothing is
    stated below on the values these two functions return, only on the
    entries they read. *)
Definition constrain_params (th : list R) : result (list R) :=
  th0 <- getitem th 0 ;;
  th1 <- getitem th 1 ;;
  th2 <- getitem th 2 ;;
  th3 <- getitem th 3 ;;
  ret [ 1 / (1 + exp (- th0));
        exp th1;
        PI / (1 + exp (- th2));
        1 / (1 + exp (- th3)) ].

Definition unconstrain_params (th_constrained : list R) : result (list R) :=
  c0 <- getitem th_constrained 0 ;;
  c1 <- getitem th_constrained 1 ;;
  c2 <- getitem th_constrained 2 ;;
  c3 <- getitem th_constrained 3 ;;
  ret [ ln (c0 / (1 - c0));
        ln c1;
        ln (c2 / (PI - c2));
        ln (c3 / (1 - c3)) ].

(** A log-density: [-np.inf] or a number. *)
Inductive logdensity : Type :=
| NegInf
| Finite (x : R).

(** [x <= y] and [x >= y] as Python evaluates them. *)
Definition Rleb (x y : R) : bool := if Rle_dec x y then true else false.
Definition Rgeb (x y : R) : bool := if Rge_dec x y then true else false.

(** ** A small instance

    One image of one pixel in band r, with trivial collaborators: the
    instance at which the theorems with hypotheses are exercised. *)

Definition example_mixture : MixtureOfGaussians :=
  {| amp := [1]; var := [identity] |}.

Definition example_mixture_params (W : mat2) (v_s image_ws : list R)
    (image_means : list (list R)) (image_covars : list mat2)
    (gal_prof_amp gal_prof_sigs : list R)
    : list R * list (list R) * list mat2 :=
  (image_ws, image_means, image_covars).

Definition example_gmm_like_2d (probs : list R) (x : list (list R))
    (ws : list R) (mus : list (list R)) (sigs : list mat2) : list R :=
  map (fun _ => 1) probs.

Definition example_lnpdf (x a0 b0 : R) : R := - (a0 + 1) * ln x - b0 / x.

Definition example_image : FitsImage :=
  {| band := "r"; calib := 1; kappa := 1;
     weights := [1]; means := [[0; 0]]; covars := [identity];
     pixel_grid := [[0; 0]];
     nelec := Array2 1 1 (fun _ _ => 3) |}.

Definition example_counts : ndarray := Array2 1 1 (fun _ _ => 3).

(** The same image under a band outside the fixed set. *)
Definition example_image_y : FitsImage :=
  {| band := "y"; calib := 1; kappa := 1;
     weights := [1]; means := [[0; 0]]; covars := [identity];
     pixel_grid := [[0; 0]];
     nelec := Array2 1 1 (fun _ _ => 3) |}.

(** The same image with a pixel grid of two rows for one entry of nelec. *)
Definition example_image_grid : FitsImage :=
  {| band := "r"; calib := 1; kappa := 1;
     weights := [1]; means := [[0; 0]]; covars := [identity];
     pixel_grid := [[0; 0]; [1; 0]];
     nelec := Array2 1 1 (fun _ _ => 3) |}.



Definition example_th : list R := [1 / 2; 1; PI / 2; 1 / 2; 0; 0; 1; 1; 1; 1; 1].

(** ** The likelihood and its gradient *)

Section Galaxy.

(** [mp.get_exp_mixture()] and [mp.get_dev_mixture()]. *)
Variable get_exp_mixture get_dev_mixture : MixtureOfGaussians.

(** [celeste_fast.gen_galaxy_prof_psf_mixture_params(W, v_s, image_ws,
    image_means, image_covars, gal_prof_amp, gal_prof_sigs)], which
    returns the weights, means and covariances of the convolved mixture. *)
Variable gen_galaxy_prof_psf_mixture_params :
  mat2 -> list R -> list R -> list (list R) -> list mat2 ->
  list R -> list R -> list R * list (list R) * list mat2.

(** [gmm_like_2d(probs, x, ws, mus, sigs)] fills the buffer [probs] in
    place: the function gives the buffer's contents after the call. *)
Variable gmm_like_2d :
  list R -> list (list R) -> list R -> list (list R) -> list mat2 -> list R.

(** The routine writes into the caller's buffer, whose length it cannot
    change. *)
Hypothesis gmm_like_2d_length :
  forall probs x ws mus sigs,
    length (gmm_like_2d probs x ws mus sigs) = length probs.

(** [fast_inv_gamma_lnpdf(x, a0, b0)]. *)
Variable fast_inv_gamma_lnpdf : R -> R -> R -> R.

Definition galaxy_profs : list MixtureOfGaussians :=
  [get_exp_mixture; get_dev_mixture].

Definition galaxy_prof_dict : dict MixtureOfGaussians :=
  dict_of (combine ["exp"; "dev"]%string galaxy_profs).

(** Wrapper of the Cython call: instantiates the probs vector. *)
Definition fast_gmm_like (x : list (list R)) (ws : list R)
    (mus : list (list R)) (sigs : list mat2) : list R :=
  let N_elem := length x in
  let probs := zeros N_elem in
  gmm_like_2d probs x ws mus sigs.

Definition gen_galaxy_prof_psf_image (prof_type : string) (Rm : mat2)
    (u : list R) (img : FitsImage) : result ndarray :=
  if negb (has_key galaxy_prof_dict prof_type) then raise UnknownProfileType
  else
    prof <- dict_get galaxy_prof_dict prof_type ;;
    let '(ws, mus, sigs) :=
      gen_galaxy_prof_psf_mixture_params
        (dot Rm (transpose Rm)) u
        (weights img) (means img) (covars img)
        (amp prof) (map m00 (var prof)) in
    let psf_grid := fast_gmm_like (pixel_grid img) ws mus sigs in
    g <- reshape psf_grid (nrows (nelec img)) (ncols (nelec img)) ;;
    ret (arrayT g).

(** [theta_s * f_nms_exp + (1. - theta_s) * f_nms_dev]. *)
Definition mix_profiles (theta_s : R) (f_nms_exp f_nms_dev : ndarray)
    : result ndarray :=
  broadcast Rplus (amap (Rmult theta_s) f_nms_exp)
                  (amap (Rmult (1 - theta_s)) f_nms_dev).

(** The body of the loop over [enumerate(images)] of [galaxy_source_like],
    from image number [n] on, [ll] being the sum so far. *)
Fixpoint like_loop (theta_s : R) (R_s : mat2) (u_s : list R) (bs : dict R)
    (Z_s : list ndarray) (n : nat) (images : list FitsImage) (ll : R)
    : result R :=
  match images with
  | [] => ret ll
  | img :: rest =>
      f_nms_exp <- gen_galaxy_prof_psf_image "exp" R_s u_s img ;;
      f_nms_dev <- gen_galaxy_prof_psf_image "dev" R_s u_s img ;;
      f_nms <- mix_profiles theta_s f_nms_exp f_nms_dev ;;
      b <- dict_get bs (band img) ;;
      let image_flux := (b / calib img) * kappa img in
      let lam := amap (Rmult image_flux) f_nms in
      Zn <- getitem Z_s n ;;
      zl <- broadcast Rmult Zn (amap ln lam) ;;
      t <- broadcast Rminus zl lam ;;
      like_loop theta_s R_s u_s bs Z_s (S n) rest (ll + np_sum t)
  end.

Definition galaxy_source_like (th : list R) (Z_s : list ndarray)
    (images : list FitsImage) (check_overlap unconstrained : bool)
    : result R :=
  let ll := 0 in
  '(theta_s, sig_s, phi_s, rho_s) <- unpack4 (slice th 0 4) ;;
  R_s <- gen_galaxy_transformation sig_s rho_s phi_s ;;
  let u_s := slice th 4 6 in
  let bs := dict_of (combine BANDS (last_n 5 th)) in
  like_loop theta_s R_s u_s bs Z_s 0 images ll.

(** The body of the first loop of [galaxy_source_like_grad]; the state is
    [grad_theta_s] and the dictionary [grad_bs]. *)
Fixpoint grad_loop (theta_s : R) (R_s : mat2) (u_s : list R) (bs : dict R)
    (Z_s : list ndarray) (n : nat) (images : list FitsImage)
    (grad_theta_s : R) (grad_bs : dict R) : result (R * dict R) :=
  match images with
  | [] => ret (grad_theta_s, grad_bs)
  | img :: rest =>
      f_nms_exp <- gen_galaxy_prof_psf_image "exp" R_s u_s img ;;
      f_nms_dev <- gen_galaxy_prof_psf_image "dev" R_s u_s img ;;
      f_nms <- mix_profiles theta_s f_nms_exp f_nms_dev ;;
      f_nms_diff <- broadcast Rminus f_nms_exp f_nms_dev ;;
      Zn <- getitem Z_s n ;;
      q <- broadcast Rdiv Zn f_nms ;;
      b <- dict_get bs (band img) ;;
      t <- broadcast Rmult (amap (fun x => x - b) q) f_nms_diff ;;
      let grad_theta_s' := grad_theta_s + np_sum t in
      g <- dict_get grad_bs (band img) ;;
      b' <- dict_get bs (band img) ;;
      Zn' <- getitem Z_s n ;;
      let grad_bs' :=
        dict_set grad_bs (band img)
                 (g + (1 / b' * np_sum Zn' - np_sum f_nms)) in
      grad_loop theta_s R_s u_s bs Z_s (S n) rest grad_theta_s' grad_bs'
  end.

(** The loop over [enumerate(numerical_inds)]; the state is [grad_RU]. *)
Fixpoint numerical_loop (th : list R) (Z_s : list ndarray)
    (images : list FitsImage) (check_overlap unconstrained : bool)
    (inds : list (nat * nat)) (grad_RU : list R) : result (list R) :=
  match inds with
  | [] => ret grad_RU
  | (i, th_i) :: rest =>
      de <- setitem (zeros (length th)) th_i 1e-5 ;;
      lp <- galaxy_source_like (vzip Rplus th de) Z_s images
                               check_overlap unconstrained ;;
      lm <- galaxy_source_like (vzip Rminus th de) Z_s images
                               check_overlap unconstrained ;;
      let dell := lp - lm in
      d <- getitem de th_i ;;
      grad_RU' <- setitem grad_RU i (dell / (2 * d)) ;;
      numerical_loop th Z_s images check_overlap unconstrained rest grad_RU'
  end.

(** [[d[b] for b in keys]]. *)
Fixpoint dict_values (d : dict R) (keys : list string) : result (list R) :=
  match keys with
  | [] => ret []
  | k :: keys' =>
      v <- dict_get d k ;;
      vs <- dict_values d keys' ;;
      ret (v :: vs)
  end.

Definition galaxy_source_like_grad (th : list R) (Z_s : list ndarray)
    (images : list FitsImage) (check_overlap unconstrained : bool)
    : result (list R) :=
  '(theta_s, sig_s, phi_s, rho_s) <- unpack4 (slice th 0 4) ;;
  R_s <- gen_galaxy_transformation sig_s rho_s phi_s ;;
  let u_s := slice th 4 6 in
  let bs := dict_of (combine BANDS (last_n 5 th)) in
  let grad_theta_s := 0 in
  let grad_bs := dict_of (combine BANDS (zeros (length BANDS))) in
  '(grad_theta_s, grad_bs) <-
    grad_loop theta_s R_s u_s bs Z_s 0 images grad_theta_s grad_bs ;;
  let numerical_inds := [1; 2; 3; 4; 5]%nat in
  let grad_RU := zeros 5 in
  grad_RU <- numerical_loop th Z_s images check_overlap unconstrained
                            (enumerate numerical_inds) grad_RU ;;
  gb <- dict_values grad_bs BANDS ;;
  ret ([grad_theta_s] ++ grad_RU ++ gb).

Definition gen_galaxy_psf_image (th : list R) (u_s : list R)
    (img : FitsImage) (check_overlap unconstrained : bool)
    : result ndarray :=
  '(theta_s, sig_s, phi_s, rho_s) <- unpack4 (slice th 0 4) ;;
  R_s <- gen_galaxy_transformation sig_s rho_s phi_s ;;
  let u_s := slice th 4 6 in
  f_nms_exp <- gen_galaxy_prof_psf_image "exp" R_s u_s img ;;
  f_nms_dev <- gen_galaxy_prof_psf_image "dev" R_s u_s img ;;
  f_nms <- mix_profiles theta_s f_nms_exp f_nms_dev ;;
  ret f_nms.

Definition galaxy_shape_prior_constrained (theta sig phi rho : R)
    : logdensity :=
  if Rleb theta 0 || Rgeb theta 1 ||
     Rleb sig 0 ||
     Rleb phi 0 || Rgeb phi PI ||
     Rleb rho 0 || Rgeb rho 1
  then NegInf
  else Finite (fast_inv_gamma_lnpdf (sig * sig) 1 1).

(** *** The quantities the specification names

    The definitions below follow the words of the specification; the
    theorems compare them with the functions above. *)

(** Entry [(i, j)] of the density image of a profile: the image that
    [gen_galaxy_prof_psf_image] returns is the transposed reshaping of the
    vector of per-pixel densities. *)
Definition prof_density (prof : MixtureOfGaussians) (Rm : mat2)
    (u : list R) (img : FitsImage) : nat -> nat -> R :=
  let '(ws, mus, sigs) :=
    gen_galaxy_prof_psf_mixture_params
      (dot Rm (transpose Rm)) u
      (weights img) (means img) (covars img)
      (amp prof) (map m00 (var prof)) in
  let psf_grid := fast_gmm_like (pixel_grid img) ws mus sigs in
  fun i j => nth (j * ncols (nelec img) + i) psf_grid 0.

(** The shape of the density images of [img]. *)
Definition density_shape (img : FitsImage) : nat * nat :=
  (ncols (nelec img), nrows (nelec img)).

Definition f_exp := prof_density get_exp_mixture.
Definition f_dev := prof_density get_dev_mixture.

(** [f = theta * f_exp + (1 - theta) * f_dev]. *)
Definition f_mix (theta : R) (Rm : mat2) (u : list R) (img : FitsImage)
    (i j : nat) : R :=
  theta * f_exp Rm u img i j + (1 - theta) * f_dev Rm u img i j.

(** The flux of a band, for the five fluxes in the order of [BANDS]. *)
Definition flux_of (fu fg fr fi fz : R) (b : string) : R :=
  if String.eqb b "u" then fu
  else if String.eqb b "g" then fg
  else if String.eqb b "r" then fr
  else if String.eqb b "i" then fi
  else if String.eqb b "z" then fz
  else 0.

(** [lam = (flux[b] / image.calib) * image.kappa * f]. *)
Definition lam_spec (flux : string -> R) (theta : R) (Rm : mat2)
    (u : list R) (img : FitsImage) (i j : nat) : R :=
  (flux (band img) / calib img) * kappa img * f_mix theta Rm u img i j.

(** The sum of [g i j] over the pixels of the density image of [img]. *)
Definition sum_pixels (img : FitsImage) (g : nat -> nat -> R) : R :=
  sum_grid (fst (density_shape img)) (snd (density_shape img)) g.

Definition sum_list (l : list R) : R := fold_right Rplus 0 l.

(** [sum(observed_n * log(lam) - lam)] over the pixels of one image. *)
Definition image_loglike (flux : string -> R) (theta : R) (Rm : mat2)
    (u : list R) (Z : ndarray) (img : FitsImage) : R :=
  sum_pixels img
    (fun i j => item Z i j * ln (lam_spec flux theta Rm u img i j)
                - lam_spec flux theta Rm u img i j).

(** The total log-likelihood: the sum over all images. *)
Definition loglike_spec (flux : string -> R) (theta : R) (Rm : mat2)
    (u : list R) (Z_s : list ndarray) (images : list FitsImage) : R :=
  sum_list (map (fun p => image_loglike flux theta Rm u (fst p) (snd p))
                (combine Z_s images)).

(** [sum((observed_n / f - flux[b]) * (f_exp - f_dev))] for one image. *)
Definition image_grad_theta (flux : string -> R) (theta : R) (Rm : mat2)
    (u : list R) (Z : ndarray) (img : FitsImage) : R :=
  sum_pixels img
    (fun i j => (item Z i j / f_mix theta Rm u img i j - flux (band img))
                * (f_exp Rm u img i j - f_dev Rm u img i j)).

Definition grad_theta_spec (flux : string -> R) (theta : R) (Rm : mat2)
    (u : list R) (Z_s : list ndarray) (images : list FitsImage) : R :=
  sum_list (map (fun p => image_grad_theta flux theta Rm u (fst p) (snd p))
                (combine Z_s images)).

(** [(1/flux[b]) * sum(observed_n) - sum(f)] for one image. *)
Definition image_grad_flux (flux : string -> R) (theta : R) (Rm : mat2)
    (u : list R) (Z : ndarray) (img : FitsImage) : R :=
  1 / flux (band img) * np_sum Z - sum_pixels img (f_mix theta Rm u img).

(** The sum of the per-image terms over the images of band [b]. *)
Definition grad_flux_spec (flux : string -> R) (theta : R) (Rm : mat2)
    (u : list R) (Z_s : list ndarray) (images : list FitsImage)
    (b : string) : R :=
  sum_list (map (fun p => image_grad_flux flux theta Rm u (fst p) (snd p))
                (filter (fun p => String.eqb (band (snd p)) b)
                        (combine Z_s images))).

(** The parameter vector with [d] added to its entry [i]. *)
Definition shifted (th : list R) (i : nat) (d : R) : list R :=
  map (fun p => if (fst p =? i)%nat then snd p + d else snd p)
      (enumerate th).


(** *** Well-formed inputs *)

(** An image of the provider: a band of the fixed set, and a pixel grid
    with one row per entry of [nelec]. *)
Definition image_ok (img : FitsImage) : Prop :=
  In (band img) BANDS /\
  length (pixel_grid img) = (nrows (nelec img) * ncols (nelec img))%nat.

(** An array of observed counts matches an image when it has the shape of
    the image's density images. *)
Definition counts_match (Z : ndarray) (img : FitsImage) : Prop :=
  image_ok img /\ shape Z = density_shape img.

(** The open domains of the constrained shape parameters. *)
Definition in_domain (theta sig phi rho : R) : Prop :=
  0 < theta < 1 /\ 0 < sig /\ 0 < phi < PI /\ 0 < rho < 1.

(** *** Lemmas on matrices and on the transform *)

Lemma mat2_eq (a b c d a' b' c' d' : R) :
  a = a' -> b = b' -> c = c' -> d = d' -> Mat2 a b c d = Mat2 a' b' c' d'.
Proof. intros; subst; reflexivity. Qed.

Lemma linalg_inv_regular (K : mat2) :
  det2d K <> 0 ->
  exists K', linalg_inv K = inr K' /\
             dot K K' = identity /\ dot K' K = identity /\
             det2d K' = 1 / det2d K.
Proof.
  intros Hd. unfold linalg_inv.
  destruct (Req_dec_T (det2d K) 0) as [E | _]; [contradiction |].
  eexists; split; [reflexivity |].
  destruct K as [a b c d]; unfold det2d in *; simpl in *.
  repeat split.
  - unfold dot, identity; simpl; apply mat2_eq; field; exact Hd.
  - unfold dot, identity; simpl; apply mat2_eq; field; exact Hd.
  - unfold det2d; simpl; field; exact Hd.
Qed.

Lemma linalg_inv_singular (K : mat2) :
  det2d K = 0 -> linalg_inv K = inl LinAlgError.
Proof.
  intros Hd. unfold linalg_inv.
  destruct (Req_dec_T (det2d K) 0) as [_ | N]; [reflexivity | contradiction].
Qed.

Lemma re_deg_pos (sig_s : R) : 0 < re_deg sig_s.
Proof.
  unfold re_deg.
  assert (H : 1 / 30 <= Rmax (1 / 30) sig_s) by apply Rmax_l.
  lra.
Qed.

Lemma det_galaxy_G (sig_s rho_s phi_s : R) :
  det2d (galaxy_G sig_s rho_s phi_s) = re_deg sig_s * re_deg sig_s * rho_s.
Proof.
  unfold galaxy_G, det2d, mscale; simpl.
  pose proof (sin2_cos2 phi_s) as H. unfold Rsqr in H.
  transitivity (re_deg sig_s * re_deg sig_s * rho_s *
                (sin phi_s * sin phi_s + cos phi_s * cos phi_s)).
  - ring.
  - rewrite H; ring.
Qed.

Lemma det_dot (A B : mat2) : det2d (dot A B) = det2d A * det2d B.
Proof. destruct A, B; unfold det2d, dot; simpl; ring. Qed.

Lemma det_cd : det2d cd = 0.396 / 3600 * (0.396 / 3600).
Proof. unfold det2d, cd; simpl; ring. Qed.

(** With a non-zero axis ratio both inversions succeed, and the value
    returned is the inverse of [T]. *)
Lemma gen_galaxy_transformation_defined (sig_s rho_s phi_s : R) :
  rho_s <> 0 ->
  exists Ginv T Tinv,
    linalg_inv (galaxy_G sig_s rho_s phi_s) = inr Ginv /\
    T = dot Ginv cd /\
    galaxy_T sig_s rho_s phi_s = inr T /\
    linalg_inv T = inr Tinv /\
    gen_galaxy_transformation sig_s rho_s phi_s = inr Tinv /\
    dot T Tinv = identity /\ dot Tinv T = identity.
Proof.
  intros Hrho.
  pose proof (re_deg_pos sig_s) as Hre.
  assert (HdG : det2d (galaxy_G sig_s rho_s phi_s) <> 0).
  { rewrite det_galaxy_G. apply Rmult_integral_contrapositive_currified; nra. }
  destruct (linalg_inv_regular _ HdG) as (Ginv & EG & _ & _ & HdGinv).
  assert (HdT : det2d (dot Ginv cd) <> 0).
  { rewrite det_dot, HdGinv, det_cd.
    apply Rmult_integral_contrapositive_currified.
    - unfold Rdiv. rewrite Rmult_1_l. apply Rinv_neq_0_compat; exact HdG.
    - lra. }
  destruct (linalg_inv_regular _ HdT) as (Tinv & ET & HTT & HTT' & _).
  exists Ginv, (dot Ginv cd), Tinv.
  assert (EGT : galaxy_T sig_s rho_s phi_s = inr (dot Ginv cd)).
  { unfold galaxy_T. rewrite EG. reflexivity. }
  repeat split; try assumption.
  unfold gen_galaxy_transformation. rewrite EGT. simpl. rewrite ET. reflexivity.
Qed.

Lemma dot_assoc (A B C : mat2) : dot (dot A B) C = dot A (dot B C).
Proof. destruct A, B, C; unfold dot; simpl; apply mat2_eq; ring. Qed.

Lemma dot_identity_l (A : mat2) : dot identity A = A.
Proof. destruct A; unfold dot, identity; simpl; apply mat2_eq; ring. Qed.

Lemma dot_identity_r (A : mat2) : dot A identity = A.
Proof. destruct A; unfold dot, identity; simpl; apply mat2_eq; ring. Qed.

Lemma cd_inv_cd : dot cd_inv cd = identity.
Proof. unfold dot, cd_inv, cd, identity; simpl; apply mat2_eq; lra. Qed.

(** The matrix returned takes unit vectors (effective radii) to pixels: it is
    [G] followed by the inverse of [cd]. *)
Lemma gen_galaxy_transformation_closed (sig_s rho_s phi_s : R) :
  rho_s <> 0 ->
  gen_galaxy_transformation sig_s rho_s phi_s
  = inr (dot cd_inv (galaxy_G sig_s rho_s phi_s)).
Proof.
  intros Hrho.
  destruct (gen_galaxy_transformation_defined sig_s rho_s phi_s Hrho)
    as (Ginv & T & Tinv & EG & ET & _ & _ & Egen & HTT & _).
  rewrite Egen. f_equal.
  assert (HdG : det2d (galaxy_G sig_s rho_s phi_s) <> 0).
  { intros Z. rewrite (linalg_inv_singular _ Z) in EG. discriminate. }
  destruct (linalg_inv_regular _ HdG) as (Ginv' & EG' & HGG & _ & _).
  rewrite EG in EG'. injection EG' as <-.
  set (X := dot cd_inv (galaxy_G sig_s rho_s phi_s)).
  assert (HXT : dot X T = identity).
  { subst X T. rewrite dot_assoc, <- (dot_assoc (galaxy_G _ _ _)), HGG.
    rewrite dot_identity_l. apply cd_inv_cd. }
  rewrite <- (dot_identity_l Tinv), <- HXT, dot_assoc, HTT.
  apply dot_identity_r.
Qed.

(** *** Lemmas on arrays *)

Lemma bidx_lt (d i : nat) : (i < d)%nat -> bidx d i = i.
Proof.
  unfold bidx. destruct (Nat.eqb_spec d 1) as [-> | _]; intros H; lia.
Qed.

Lemma sum_upto_ext (n : nat) (f g : nat -> R) :
  (forall i, (i < n)%nat -> f i = g i) -> sum_upto n f = sum_upto n g.
Proof.
  induction n as [| n IH]; intros H; simpl.
  - reflexivity.
  - rewrite IH by (intros i Hi; apply H; lia).
    rewrite (H n) by lia. reflexivity.
Qed.

Lemma sum_grid_ext (r c : nat) (f g : nat -> nat -> R) :
  (forall i j, (i < r)%nat -> (j < c)%nat -> f i j = g i j) ->
  sum_grid r c f = sum_grid r c g.
Proof.
  intros H. unfold sum_grid.
  apply sum_upto_ext; intros i Hi.
  apply sum_upto_ext; intros j Hj.
  apply H; assumption.
Qed.

Lemma bdim_same (a : nat) : bdim a a = inr a.
Proof. unfold bdim. rewrite Nat.eqb_refl. reflexivity. Qed.

(** On two arrays of one shape, broadcasting succeeds and keeps the shape. *)
Lemma broadcast_same_shape (f : R -> R -> R) (A B : ndarray) :
  nrows A = nrows B -> ncols A = ncols B ->
  broadcast f A B
  = inr (Array2 (nrows A) (ncols A)
           (fun i j => f (item A (bidx (nrows A) i) (bidx (ncols A) j))
                         (item B (bidx (nrows A) i) (bidx (ncols A) j)))).
Proof.
  intros Hr Hc. unfold broadcast. rewrite <- Hr, <- Hc, !bdim_same.
  reflexivity.
Qed.

Lemma getitem_app {A : Type} (pre : list A) (a : A) (post : list A) :
  getitem (pre ++ a :: post) (length pre) = inr a.
Proof.
  unfold getitem. rewrite nth_error_app2 by lia.
  rewrite Nat.sub_diag. reflexivity.
Qed.

(** *** Lemmas on the dictionaries of bands *)

(** The dictionary that gives [v b] to every band [b]. *)
Lemma dict_of_bands (a b c d e : R) :
  dict_of (combine BANDS [a; b; c; d; e])
  = map (fun k => (k, flux_of a b c d e k)) BANDS.
Proof. reflexivity. Qed.

Lemma in_bands (k : string) :
  In k BANDS ->
  k = "u"%string \/ k = "g"%string \/ k = "r"%string \/
  k = "i"%string \/ k = "z"%string.
Proof.
  unfold BANDS; simpl. intros H.
  repeat (destruct H as [H | H]; [auto 6 |]). contradiction.
Qed.

Lemma dict_get_bands (v : string -> R) (k : string) :
  In k BANDS ->
  dict_get (map (fun k => (k, v k)) BANDS) k = inr (v k).
Proof.
  intros H.
  destruct (in_bands k H) as [-> | [-> | [-> | [-> | ->]]]]; reflexivity.
Qed.

Lemma dict_set_bands (v : string -> R) (k : string) (x : R) :
  In k BANDS ->
  dict_set (map (fun k => (k, v k)) BANDS) k x
  = map (fun k' => (k', if String.eqb k' k then x else v k')) BANDS.
Proof.
  intros H.
  destruct (in_bands k H) as [-> | [-> | [-> | [-> | ->]]]]; reflexivity.
Qed.

Lemma dict_values_bands (v : string -> R) :
  dict_values (map (fun k => (k, v k)) BANDS) BANDS = inr (map v BANDS).
Proof. reflexivity. Qed.

(** *** Lemmas on the profile images *)

Lemma fast_gmm_like_length (x : list (list R)) (ws : list R)
    (mus : list (list R)) (sigs : list mat2) :
  length (fast_gmm_like x ws mus sigs) = length x.
Proof.
  unfold fast_gmm_like, zeros.
  rewrite gmm_like_2d_length. apply repeat_length.
Qed.

Lemma has_key_profile (k : string) :
  has_key galaxy_prof_dict k
  = (String.eqb "exp" k || String.eqb "dev" k)%bool.
Proof.
  change (has_key galaxy_prof_dict k)
    with (if String.eqb "exp" k then true
          else if String.eqb "dev" k then true else false).
  destruct (String.eqb "exp" k), (String.eqb "dev" k); reflexivity.
Qed.

(** The image of a registered profile, for a well-formed image. *)
Lemma prof_image_registered (k : string) (prof : MixtureOfGaussians)
    (Rm : mat2) (u : list R) (img : FitsImage) :
  has_key galaxy_prof_dict k = true ->
  dict_get galaxy_prof_dict k = inr prof ->
  length (pixel_grid img) = (nrows (nelec img) * ncols (nelec img))%nat ->
  gen_galaxy_prof_psf_image k Rm u img
  = inr (Array2 (ncols (nelec img)) (nrows (nelec img))
                (prof_density prof Rm u img)).
Proof.
  intros Hk Hget Hlen.
  unfold gen_galaxy_prof_psf_image, prof_density.
  rewrite Hk, Hget. simpl.
  destruct (gen_galaxy_prof_psf_mixture_params _ _ _ _ _ _ _)
    as [[ws mus] sigs].
  unfold reshape. rewrite fast_gmm_like_length, Hlen, Nat.eqb_refl.
  reflexivity.
Qed.

Lemma prof_image_exp (Rm : mat2) (u : list R) (img : FitsImage) :
  image_ok img ->
  gen_galaxy_prof_psf_image "exp" Rm u img
  = inr (Array2 (ncols (nelec img)) (nrows (nelec img)) (f_exp Rm u img)).
Proof.
  intros [_ Hlen]. apply prof_image_registered; auto.
Qed.

Lemma prof_image_dev (Rm : mat2) (u : list R) (img : FitsImage) :
  image_ok img ->
  gen_galaxy_prof_psf_image "dev" Rm u img
  = inr (Array2 (ncols (nelec img)) (nrows (nelec img)) (f_dev Rm u img)).
Proof.
  intros [_ Hlen]. apply prof_image_registered; auto.
Qed.

(** A registered profile never trips the assertion. *)
Lemma prof_image_no_assertion (k : string) (Rm : mat2) (u : list R)
    (img : FitsImage) :
  has_key galaxy_prof_dict k = true ->
  gen_galaxy_prof_psf_image k Rm u img <> inl UnknownProfileType.
Proof.
  intros Hk. unfold gen_galaxy_prof_psf_image. rewrite Hk.
  cbv beta iota delta [negb].
  destruct (dict_get galaxy_prof_dict k) as [e | prof] eqn:Hget.
  - rewrite has_key_profile in Hk.
    revert Hget.
    change (dict_get galaxy_prof_dict k)
      with (if String.eqb "exp" k then inr get_exp_mixture
            else if String.eqb "dev" k then inr get_dev_mixture
            else @raise MixtureOfGaussians (KeyError k)).
    destruct (String.eqb "exp" k), (String.eqb "dev" k);
      simpl in Hk; discriminate.
  - unfold bind at 1.
    destruct (gen_galaxy_prof_psf_mixture_params _ _ _ _ _ _ _)
      as [[ws mus] sigs].
    unfold reshape.
    destruct (Nat.eqb _ _); simpl; discriminate.
Qed.

(** *** The loop of the likelihood *)

(** Inside the bounds of an array, broadcasting reads the entry itself. *)
Ltac in_bounds i j :=
  repeat rewrite (bidx_lt _ i) by assumption;
  repeat rewrite (bidx_lt _ j) by assumption.

(** Two arrays have one shape: by computation, or by a hypothesis. *)
Ltac same_shape :=
  cbn [nrows ncols amap item];
  first [ reflexivity | assumption | symmetry; assumption ].

Lemma sum_list_cons (x : R) (l : list R) : sum_list (x :: l) = x + sum_list l.
Proof. reflexivity. Qed.

Lemma counts_match_shape (Z : ndarray) (img : FitsImage) :
  counts_match Z img ->
  nrows Z = ncols (nelec img) /\ ncols Z = nrows (nelec img).
Proof.
  intros [_ H]. unfold shape, density_shape in H.
  injection H as H1 H2. split; assumption.
Qed.

(** One more array of counts read: the loop index is the length of the
    prefix already consumed. *)
Lemma prefix_step {A : Type} (pre : list A) (a : A) (post : list A) :
  pre ++ a :: post = (pre ++ [a]) ++ post /\
  S (length pre) = length (pre ++ [a]).
Proof.
  split.
  - rewrite <- app_assoc. reflexivity.
  - rewrite length_app. simpl. lia.
Qed.

Lemma like_loop_spec (flux : string -> R) (theta : R) (Rm : mat2)
    (u : list R) (pre Zs : list ndarray) (images : list FitsImage) (ll : R) :
  Forall2 counts_match Zs images ->
  like_loop theta Rm u (map (fun k => (k, flux k)) BANDS)
            (pre ++ Zs) (length pre) images ll
  = inr (ll + loglike_spec flux theta Rm u Zs images).
Proof.
  intros H. revert pre ll.
  induction H as [| Z img Zs images HZ HF IH]; intros pre ll.
  - simpl. unfold ret, loglike_spec. simpl. f_equal. ring.
  - destruct (counts_match_shape Z img HZ) as [Hr Hc].
    destruct HZ as [Hok _].
    cbn [like_loop].
    rewrite (prof_image_exp Rm u img Hok), (prof_image_dev Rm u img Hok).
    cbn [bind]. unfold mix_profiles.
    rewrite broadcast_same_shape by same_shape. cbn [bind].
    rewrite (dict_get_bands flux (band img)) by apply Hok. cbn [bind].
    rewrite getitem_app. cbn [bind].
    rewrite broadcast_same_shape by same_shape. cbn [bind].
    rewrite broadcast_same_shape by same_shape. cbn [bind].
    destruct (prefix_step pre Z Zs) as [-> ->].
    rewrite IH. f_equal.
    unfold loglike_spec. cbn [combine map fst snd]. rewrite sum_list_cons.
    rewrite Rplus_assoc. f_equal. f_equal.
    unfold np_sum, image_loglike, sum_pixels, density_shape.
    cbn [nrows ncols item amap fst snd].
    rewrite Hr, Hc.
    apply sum_grid_ext; intros i j Hi Hj.
    in_bounds i j.
    unfold lam_spec, f_mix. reflexivity.
Qed.

(** The parameter vector of the specification, unpacked. *)
Lemma galaxy_source_like_unfold (theta sig phi rho ux uy fu fg fr fi fz : R)
    (Z_s : list ndarray) (images : list FitsImage) (co un : bool) :
  galaxy_source_like [theta; sig; phi; rho; ux; uy; fu; fg; fr; fi; fz]
                     Z_s images co un
  = (R_s <- gen_galaxy_transformation sig rho phi ;;
     like_loop theta R_s [ux; uy]
               (map (fun k => (k, flux_of fu fg fr fi fz k)) BANDS)
               Z_s 0 images 0).
Proof. reflexivity. Qed.

Lemma galaxy_source_like_spec (theta sig phi rho ux uy fu fg fr fi fz : R)
    (Z_s : list ndarray) (images : list FitsImage) (co un : bool) :
  rho <> 0 ->
  Forall2 counts_match Z_s images ->
  galaxy_source_like [theta; sig; phi; rho; ux; uy; fu; fg; fr; fi; fz]
                     Z_s images co un
  = inr (loglike_spec (flux_of fu fg fr fi fz) theta
           (dot cd_inv (galaxy_G sig rho phi)) [ux; uy] Z_s images).
Proof.
  intros Hrho HF.
  rewrite galaxy_source_like_unfold.
  rewrite gen_galaxy_transformation_closed by assumption. cbn [bind].
  rewrite (like_loop_spec _ theta _ [ux; uy] [] Z_s images 0 HF).
  f_equal. ring.
Qed.

(** *** The loops of the gradient *)

Lemma grad_flux_spec_cons (flux : string -> R) (theta : R) (Rm : mat2)
    (u : list R) (Z : ndarray) (img : FitsImage) (Zs : list ndarray)
    (images : list FitsImage) (b : string) :
  grad_flux_spec flux theta Rm u (Z :: Zs) (img :: images) b
  = (if String.eqb (band img) b
     then image_grad_flux flux theta Rm u Z img else 0)
    + grad_flux_spec flux theta Rm u Zs images b.
Proof.
  unfold grad_flux_spec. cbn [combine filter snd].
  destruct (String.eqb (band img) b).
  - reflexivity.
  - ring.
Qed.

Lemma grad_loop_spec (flux : string -> R) (theta : R) (Rm : mat2)
    (u : list R) (pre Zs : list ndarray) (images : list FitsImage)
    (g0 : R) (v : string -> R) :
  Forall2 counts_match Zs images ->
  grad_loop theta Rm u (map (fun k => (k, flux k)) BANDS)
            (pre ++ Zs) (length pre) images g0
            (map (fun k => (k, v k)) BANDS)
  = inr (g0 + grad_theta_spec flux theta Rm u Zs images,
         map (fun k => (k, v k + grad_flux_spec flux theta Rm u Zs images k))
             BANDS).
Proof.
  intros H. revert pre g0 v.
  induction H as [| Z img Zs images HZ HF IH]; intros pre g0 v.
  - simpl. unfold ret, grad_theta_spec, grad_flux_spec. simpl.
    repeat f_equal; ring.
  - destruct (counts_match_shape Z img HZ) as [Hr Hc].
    destruct HZ as [Hok _].
    cbn [grad_loop].
    rewrite (prof_image_exp Rm u img Hok), (prof_image_dev Rm u img Hok).
    cbn [bind]. unfold mix_profiles.
    rewrite broadcast_same_shape by same_shape. cbn [bind].
    rewrite broadcast_same_shape by same_shape. cbn [bind].
    rewrite getitem_app. cbn [bind].
    rewrite broadcast_same_shape by same_shape. cbn [bind].
    rewrite (dict_get_bands flux (band img)) by apply Hok. cbn [bind].
    rewrite broadcast_same_shape by same_shape. cbn [bind].
    rewrite (dict_get_bands v (band img)) by apply Hok. cbn [bind].
    rewrite (dict_set_bands v (band img)) by apply Hok.
    destruct (prefix_step pre Z Zs) as [-> ->].
    rewrite IH. f_equal. f_equal.
    + unfold grad_theta_spec. cbn [combine map fst snd].
      rewrite sum_list_cons, Rplus_assoc. f_equal. f_equal.
      unfold np_sum, image_grad_theta, sum_pixels, density_shape.
      cbn [nrows ncols item amap fst snd].
      rewrite Hr, Hc.
      apply sum_grid_ext; intros i j Hi Hj.
      in_bounds i j.
      unfold f_mix. reflexivity.
    + apply map_ext; intros b. f_equal.
      rewrite grad_flux_spec_cons, String.eqb_sym.
      destruct (String.eqb_spec (band img) b) as [<- | _]; [| ring].
      rewrite <- Rplus_assoc. f_equal. f_equal.
      unfold image_grad_flux. f_equal.
      unfold np_sum, sum_pixels, density_shape.
      cbn [nrows ncols item amap fst snd].
      apply sum_grid_ext; intros i j Hi Hj.
      in_bounds i j.
      unfold f_mix. reflexivity.
Qed.

(** Reduction of the list and index operations met in the loop over
    [numerical_inds], leaving the calls of the likelihood in place. *)
Ltac run_indices :=
  cbn [numerical_loop enumerate combine seq length setitem zeros repeat
       Nat.ltb Nat.leb firstn skipn app bind ret vzip map fst snd getitem
       nth_error shifted Nat.eqb].

Ltac run_indices_in H :=
  cbn [enumerate combine seq length map fst snd shifted Nat.eqb] in H.

Lemma numerical_loop_spec (theta sig phi rho ux uy fu fg fr fi fz : R)
    (Z_s : list ndarray) (images : list FitsImage) (co un : bool)
    (Lp Lm : nat -> R) :
  let th := [theta; sig; phi; rho; ux; uy; fu; fg; fr; fi; fz] in
  (forall i, (1 <= i <= 5)%nat ->
     galaxy_source_like (shifted th i 1e-5) Z_s images co un
     = inr (Lp i)) ->
  (forall i, (1 <= i <= 5)%nat ->
     galaxy_source_like (shifted th i (Ropp 1e-5)) Z_s images co un
     = inr (Lm i)) ->
  numerical_loop th Z_s images co un (enumerate [1; 2; 3; 4; 5]%nat) (zeros 5)
  = inr (map (fun i => (Lp i - Lm i) / (2 * 1e-5)) [1; 2; 3; 4; 5]%nat).
Proof.
  intros th HP HM. subst th.
  pose proof (HP 1%nat ltac:(lia)) as P1.
  pose proof (HP 2%nat ltac:(lia)) as P2.
  pose proof (HP 3%nat ltac:(lia)) as P3.
  pose proof (HP 4%nat ltac:(lia)) as P4.
  pose proof (HP 5%nat ltac:(lia)) as P5.
  pose proof (HM 1%nat ltac:(lia)) as M1.
  pose proof (HM 2%nat ltac:(lia)) as M2.
  pose proof (HM 3%nat ltac:(lia)) as M3.
  pose proof (HM 4%nat ltac:(lia)) as M4.
  pose proof (HM 5%nat ltac:(lia)) as M5.
  clear HP HM.
  run_indices.
  run_indices_in P1; run_indices_in P2; run_indices_in P3;
    run_indices_in P4; run_indices_in P5.
  run_indices_in M1; run_indices_in M2; run_indices_in M3;
    run_indices_in M4; run_indices_in M5.
  rewrite !Rplus_0_r, !Rminus_0_r.
  unfold Rminus.
  rewrite P1, M1. run_indices.
  rewrite P2, M2. run_indices.
  rewrite P3, M3. run_indices.
  rewrite P4, M4. run_indices.
  rewrite P5, M5. run_indices.
  reflexivity.
Qed.

Lemma galaxy_source_like_grad_unfold
    (theta sig phi rho ux uy fu fg fr fi fz : R)
    (Z_s : list ndarray) (images : list FitsImage) (co un : bool) :
  let th := [theta; sig; phi; rho; ux; uy; fu; fg; fr; fi; fz] in
  galaxy_source_like_grad th Z_s images co un
  = (R_s <- gen_galaxy_transformation sig rho phi ;;
     ' (grad_theta_s, grad_bs) <-
       grad_loop theta R_s [ux; uy]
                 (map (fun k => (k, flux_of fu fg fr fi fz k)) BANDS)
                 Z_s 0 images 0 (map (fun k => (k, 0)) BANDS) ;;
     grad_RU <- numerical_loop th Z_s images co un
                               (enumerate [1; 2; 3; 4; 5]%nat) (zeros 5) ;;
     gb <- dict_values grad_bs BANDS ;;
     ret ([grad_theta_s] ++ grad_RU ++ gb)).
Proof. reflexivity. Qed.



(** *** Lemmas on the range test of the prior *)

Lemma Rleb_false (x y : R) : Rleb x y = false <-> y < x.
Proof.
  unfold Rleb. destruct (Rle_dec x y); split; intros H;
    try discriminate; try reflexivity; lra.
Qed.

Lemma Rgeb_false (x y : R) : Rgeb x y = false <-> x < y.
Proof.
  unfold Rgeb. destruct (Rge_dec x y); split; intros H;
    try discriminate; try reflexivity; lra.
Qed.

(** The test of [galaxy_shape_prior_constrained] fails exactly inside the
    open domains. *)
Lemma range_test_spec (theta sig phi rho : R) :
  (Rleb theta 0 || Rgeb theta 1 || Rleb sig 0 ||
   Rleb phi 0 || Rgeb phi PI || Rleb rho 0 || Rgeb rho 1)%bool = false
  <-> in_domain theta sig phi rho.
Proof.
  unfold in_domain.
  rewrite !orb_false_iff, !Rleb_false, !Rgeb_false.
  tauto.
Qed.


(** ** The claims of the specification *)

(** C1, as amended: for every sigma > 0, rho in (0,1) and phi in (0,pi), the
    Geometric Transform inverts [G] (built from
    [re_deg = max(1/30, sigma)/3600], [cos phi], [sin phi] and [rho]),
    computes [T = inverse(G) . cd] with [cd] the fixed 0.396 arcsec/pixel
    matrix, inverts [T], and returns the inverse of [T] alone; [T] and the
    value returned are inverse to each other. *)
Theorem gen_galaxy_transformation_returns_Tinv (sig rho phi : R) :
  0 < sig -> 0 < rho < 1 -> 0 < phi < PI ->
  exists Ginv T Tinv,
    linalg_inv (galaxy_G sig rho phi) = inr Ginv /\
    T = dot Ginv cd /\
    galaxy_T sig rho phi = inr T /\
    linalg_inv T = inr Tinv /\
    gen_galaxy_transformation sig rho phi = inr Tinv /\
    dot T Tinv = identity /\ dot Tinv T = identity.
Proof.
  intros _ Hrho _.
  apply gen_galaxy_transformation_defined. lra.
Qed.





(** C7: for every profile-type key other than "exp" and "dev",
    [gen_galaxy_prof_psf_image] fails with the unknown-profile-type error;
    for the keys "exp" and "dev" that error is not raised. *)
Theorem gen_galaxy_prof_psf_image_unknown_profile (prof_type : string)
    (Rm : mat2) (u : list R) (img : FitsImage) :
  (prof_type <> "exp"%string -> prof_type <> "dev"%string ->
   gen_galaxy_prof_psf_image prof_type Rm u img = inl UnknownProfileType) /\
  (prof_type = "exp"%string \/ prof_type = "dev"%string ->
   gen_galaxy_prof_psf_image prof_type Rm u img <> inl UnknownProfileType).
Proof.
  split.
  - intros He Hd. unfold gen_galaxy_prof_psf_image.
    rewrite has_key_profile.
    destruct (String.eqb_spec "exp" prof_type) as [E | _];
      [symmetry in E; contradiction |].
    destruct (String.eqb_spec "dev" prof_type) as [E | _];
      [symmetry in E; contradiction |].
    reflexivity.
  - intros [-> | ->]; apply prof_image_no_assertion; reflexivity.
Qed.

(** C8: the constrained shape prior returns minus infinity exactly when
    (theta, sigma, phi, rho) lies outside the open domains theta in (0,1),
    sigma in (0,inf), phi in (0,pi), rho in (0,1); otherwise it returns the
    inverse-gamma log-density (with a0 = b0 = 1) evaluated at sigma^2.  It
    returns in both cases. *)
Theorem galaxy_shape_prior_constrained_domain (theta sig phi rho : R) :
  (galaxy_shape_prior_constrained theta sig phi rho = NegInf
   <-> ~ in_domain theta sig phi rho) /\
  (in_domain theta sig phi rho ->
   galaxy_shape_prior_constrained theta sig phi rho
   = Finite (fast_inv_gamma_lnpdf (sig * sig) 1 1)).
Proof.
  pose proof (range_test_spec theta sig phi rho) as Ht.
  unfold galaxy_shape_prior_constrained.
  destruct (Rleb theta 0 || Rgeb theta 1 || Rleb sig 0 ||
            Rleb phi 0 || Rgeb phi PI || Rleb rho 0 || Rgeb rho 1)%bool.
  - assert (Hn : ~ in_domain theta sig phi rho).
    { intros Hd. apply Ht in Hd. discriminate. }
    split; [split; auto | intros Hd; contradiction].
  - assert (Hd : in_domain theta sig phi rho) by (apply Ht; reflexivity).
    split; [split | reflexivity].
    + discriminate.
    + intros Hn; contradiction.
Qed.

(** C9: the result of [gen_galaxy_psf_image] does not depend on its [u_s]
    argument: the location used is [th[4:6]], which overwrites it. *)
Theorem gen_galaxy_psf_image_ignores_u_s (th u1 u2 : list R)
    (img : FitsImage) (co un : bool) :
  gen_galaxy_psf_image th u1 img co un = gen_galaxy_psf_image th u2 img co un
  /\ gen_galaxy_psf_image th u1 img co un
     = ('(theta_s, sig_s, phi_s, rho_s) <- unpack4 (slice th 0 4) ;;
        R_s <- gen_galaxy_transformation sig_s rho_s phi_s ;;
        f_nms_exp <- gen_galaxy_prof_psf_image "exp" R_s (slice th 4 6) img ;;
        f_nms_dev <- gen_galaxy_prof_psf_image "dev" R_s (slice th 4 6) img ;;
        mix_profiles theta_s f_nms_exp f_nms_dev).
Proof.
  split; [reflexivity |].
  unfold gen_galaxy_psf_image.
  destruct (unpack4 (slice th 0 4)) as [e | [[[t s] p] r]]; [reflexivity |].
  cbn [bind].
  destruct (gen_galaxy_transformation s r p) as [e | R_s]; [reflexivity |].
  cbn [bind].
  destruct (gen_galaxy_prof_psf_image "exp" R_s (slice th 4 6) img)
    as [e | fe]; [reflexivity |].
  cbn [bind].
  destruct (gen_galaxy_prof_psf_image "dev" R_s (slice th 4 6) img)
    as [e | fd]; [reflexivity |].
  cbn [bind].
  destruct (mix_profiles t fe fd); reflexivity.
Qed.

(** ** Further properties of the code *)

(** *** The geometric transform *)

Lemma gen_galaxy_transformation_singular (sig_s phi_s : R) :
  gen_galaxy_transformation sig_s 0 phi_s = inl LinAlgError.
Proof.
  unfold gen_galaxy_transformation, galaxy_T.
  rewrite linalg_inv_singular; [reflexivity |].
  rewrite det_galaxy_G. ring.
Qed.

Lemma det_cd_inv : det2d cd_inv = 3600 / 0.396 * (3600 / 0.396).
Proof. unfold det2d, cd_inv; simpl; ring. Qed.

Lemma det_transpose (K : mat2) : det2d (transpose K) = det2d K.
Proof. destruct K; unfold det2d, transpose; simpl; ring. Qed.

(** X1: [gen_galaxy_transformation] raises exactly when the axis ratio is
    0, whatever the radius and the angle, and the error is then numpy's
    [LinAlgError]; no other exception leaves it. *)
Theorem gen_galaxy_transformation_fails_iff_rho_zero (sig rho phi : R) :
  (gen_galaxy_transformation sig rho phi = inl LinAlgError <-> rho = 0) /\
  (forall e, gen_galaxy_transformation sig rho phi = inl e ->
             e = LinAlgError /\ rho = 0).
Proof.
  destruct (Req_dec_T rho 0) as [-> | N].
  - rewrite gen_galaxy_transformation_singular. split.
    + split; reflexivity.
    + intros e H. injection H as <-. split; reflexivity.
  - rewrite gen_galaxy_transformation_closed by exact N. split.
    + split; [discriminate | contradiction].
    + discriminate.
Qed.

(** X2: with a non-zero axis ratio the matrix returned is
    [s * [[cos phi, sin phi * rho], [-sin phi, cos phi * rho]]] with
    [s = max(1/30, sigma) / 0.396], the floored radius in pixels. *)
Theorem gen_galaxy_transformation_entries (sig rho phi : R) :
  rho <> 0 ->
  gen_galaxy_transformation sig rho phi
  = inr (Mat2 (Rmax (1 / 30) sig / 0.396 * cos phi)
              (Rmax (1 / 30) sig / 0.396 * (sin phi * rho))
              (- (Rmax (1 / 30) sig / 0.396 * sin phi))
              (Rmax (1 / 30) sig / 0.396 * (cos phi * rho))).
Proof.
  intros Hrho.
  rewrite gen_galaxy_transformation_closed by exact Hrho.
  f_equal.
  unfold dot, cd_inv, galaxy_G, mscale, re_deg; simpl.
  replace 0.396 with (396 / 1000) by lra.
  apply mat2_eq; field.
Qed.

(** X3: the radius floor.  Every radius of at most 1/30 arcsec gives the
    result of the radius 1/30 itself: below the floor the transform does not
    depend on sigma. *)
Theorem gen_galaxy_transformation_floor (sig rho phi : R) :
  sig <= 1 / 30 ->
  gen_galaxy_transformation sig rho phi
  = gen_galaxy_transformation (1 / 30) rho phi.
Proof.
  intros Hs.
  unfold gen_galaxy_transformation, galaxy_T, galaxy_G, re_deg.
  rewrite (Rmax_left (1 / 30) sig) by exact Hs.
  rewrite (Rmax_left (1 / 30) (1 / 30)) by lra.
  reflexivity.
Qed.

(** X4: whenever the transform returns a matrix [R], the shape covariance
    [W = R . R^T] handed to the convolution is symmetric with positive
    leading entry and positive determinant: it is positive definite. *)
Theorem shape_covariance_positive_definite (sig rho phi : R) (Rm : mat2) :
  gen_galaxy_transformation sig rho phi = inr Rm ->
  let W := dot Rm (transpose Rm) in
  m01 W = m10 W /\ 0 < m00 W /\ 0 < det2d W.
Proof.
  intros Hgen W.
  assert (Hrho : rho <> 0).
  { intros ->. rewrite gen_galaxy_transformation_singular in Hgen.
    discriminate. }
  assert (HdR : det2d Rm <> 0).
  { rewrite gen_galaxy_transformation_closed in Hgen by exact Hrho.
    injection Hgen as <-.
    rewrite det_dot, det_cd_inv, det_galaxy_G.
    pose proof (Rmax_l (1 / 30) sig) as Hre.
    repeat apply Rmult_integral_contrapositive_currified;
      first [assumption | lra]. }
  assert (HdW : det2d W = det2d Rm * det2d Rm).
  { subst W. rewrite det_dot, det_transpose. reflexivity. }
  split; [| split].
  - subst W. destruct Rm; unfold dot, transpose; simpl. ring.
  - subst W. destruct Rm as [a b c d]; unfold dot, transpose, det2d in *;
      simpl in *.
    destruct (Req_dec_T a 0) as [-> | Ha].
    + destruct (Req_dec_T b 0) as [-> | Hb].
      * exfalso. apply HdR. ring.
      * nra.
    + nra.
  - rewrite HdW. nra.
Qed.

(** *** The helper inv2d *)

(** X5: for a matrix of non-zero determinant, [inv2d] returns the inverse of
    the transposed matrix; it is the inverse of the matrix itself exactly
    when the matrix is symmetric. *)
Theorem inv2d_inverts_the_transpose (K : mat2) :
  det2d K <> 0 ->
  dot (transpose K) (inv2d K) = identity /\
  dot (inv2d K) (transpose K) = identity /\
  (dot K (inv2d K) = identity <-> m01 K = m10 K).
Proof.
  intros Hd.
  destruct K as [a b c d]; unfold inv2d, dot, transpose, mscale,
    identity, det2d in *; simpl in *.
  split; [| split].
  - apply mat2_eq; field; exact Hd.
  - apply mat2_eq; field; exact Hd.
  - split.
    + intros E. injection E as E00 E01 E10 E11.
      assert (Hi : 1 / (a * d - c * b) <> 0).
      { unfold Rdiv. rewrite Rmult_1_l. apply Rinv_neq_0_compat; exact Hd. }
      set (q := 1 / (a * d - c * b)) in *.
      assert (F1 : q * (a * (b - c)) = 0) by lra.
      assert (F2 : q * (d * (c - b)) = 0) by lra.
      assert (G1 : a * (b - c) = 0).
      { destruct (Rmult_integral _ _ F1); [contradiction | assumption]. }
      assert (G2 : d * (c - b) = 0).
      { destruct (Rmult_integral _ _ F2); [contradiction | assumption]. }
      assert (F3 : q * (a * d - b * b) = 1) by lra.
      assert (F4 : q * (a * d - c * b) = 1).
      { subst q. field. exact Hd. }
      assert (F5 : q * (b * (c - b)) = 0) by lra.
      assert (G3 : b * (c - b) = 0).
      { destruct (Rmult_integral _ _ F5); [contradiction | assumption]. }
      destruct (Req_dec_T b c) as [E | N]; [exact E |].
      exfalso.
      assert (Ha : a = 0).
      { destruct (Rmult_integral _ _ G1); [assumption | lra]. }
      assert (Hb : b = 0).
      { destruct (Rmult_integral _ _ G3); [assumption | lra]. }
      apply Hd. subst a b. ring.
    + intros ->. apply mat2_eq; field; exact Hd.
Qed.


(** *** What the likelihood depends on *)

Lemma bind_ext {A B : Type} (c : result A) (k k' : A -> result B) :
  (forall a, k a = k' a) -> bind c k = bind c k'.
Proof. intros H. destruct c; simpl; [reflexivity | apply H]. Qed.

(** A profile image reads the matrix only through [R . R^T]. *)
Lemma prof_image_W (k : string) (Rm Rm' : mat2) (u : list R)
    (img : FitsImage) :
  dot Rm (transpose Rm) = dot Rm' (transpose Rm') ->
  gen_galaxy_prof_psf_image k Rm u img
  = gen_galaxy_prof_psf_image k Rm' u img.
Proof.
  intros H. unfold gen_galaxy_prof_psf_image. rewrite H. reflexivity.
Qed.

Lemma like_loop_W (theta : R) (Rm Rm' : mat2) (u : list R) (bs : dict R)
    (Z_s : list ndarray) (images : list FitsImage) :
  dot Rm (transpose Rm) = dot Rm' (transpose Rm') ->
  forall n ll,
    like_loop theta Rm u bs Z_s n images ll
    = like_loop theta Rm' u bs Z_s n images ll.
Proof.
  intros H. induction images as [| img rest IH]; intros n ll.
  - reflexivity.
  - cbn [like_loop].
    rewrite (prof_image_W "exp" Rm Rm' u img H).
    rewrite (prof_image_W "dev" Rm Rm' u img H).
    repeat (apply bind_ext; intros ?).
    apply IH.
Qed.



(** X6: the likelihood has period pi in the position angle: adding pi to
    phi negates the matrix of the transform, which the profile images read
    only through [R . R^T].  This holds for every input, failures
    included. *)
Theorem galaxy_source_like_angle_period
    (theta sig phi rho ux uy fu fg fr fi fz : R)
    (Z_s : list ndarray) (images : list FitsImage) (co un : bool) :
  galaxy_source_like [theta; sig; phi + PI; rho; ux; uy; fu; fg; fr; fi; fz]
                     Z_s images co un
  = galaxy_source_like [theta; sig; phi; rho; ux; uy; fu; fg; fr; fi; fz]
                       Z_s images co un.
Proof.
  rewrite !galaxy_source_like_unfold.
  destruct (Req_dec_T rho 0) as [-> | N].
  - rewrite !gen_galaxy_transformation_singular. reflexivity.
  - rewrite !gen_galaxy_transformation_closed by exact N. cbn [bind].
    apply like_loop_W.
    unfold galaxy_G. rewrite neg_cos, neg_sin.
    unfold dot, transpose, mscale, cd_inv; simpl.
    apply mat2_eq; ring.
Qed.

(** X7: the likelihood depends on the axis ratio only through its absolute
    value: rho and -rho give the same result, failures included. *)
Theorem galaxy_source_like_axis_ratio_sign
    (theta sig phi rho ux uy fu fg fr fi fz : R)
    (Z_s : list ndarray) (images : list FitsImage) (co un : bool) :
  galaxy_source_like [theta; sig; phi; - rho; ux; uy; fu; fg; fr; fi; fz]
                     Z_s images co un
  = galaxy_source_like [theta; sig; phi; rho; ux; uy; fu; fg; fr; fi; fz]
                       Z_s images co un.
Proof.
  rewrite !galaxy_source_like_unfold.
  destruct (Req_dec_T rho 0) as [-> | N].
  - rewrite Ropp_0. reflexivity.
  - assert (N' : - rho <> 0) by lra.
    rewrite (gen_galaxy_transformation_closed sig (- rho) phi N').
    rewrite (gen_galaxy_transformation_closed sig rho phi N).
    cbn [bind]. apply like_loop_W.
    unfold galaxy_G, dot, transpose, mscale, cd_inv; simpl.
    apply mat2_eq; ring.
Qed.

(** X8: below the radius floor the likelihood does not depend on sigma: any
    two radii of at most 1/30 arcsec give the same result. *)
Theorem galaxy_source_like_radius_floor
    (theta sig sig' phi rho ux uy fu fg fr fi fz : R)
    (Z_s : list ndarray) (images : list FitsImage) (co un : bool) :
  sig <= 1 / 30 -> sig' <= 1 / 30 ->
  galaxy_source_like [theta; sig; phi; rho; ux; uy; fu; fg; fr; fi; fz]
                     Z_s images co un
  = galaxy_source_like [theta; sig'; phi; rho; ux; uy; fu; fg; fr; fi; fz]
                       Z_s images co un.
Proof.
  intros Hs Hs'. rewrite !galaxy_source_like_unfold.
  assert (E : gen_galaxy_transformation sig rho phi
              = gen_galaxy_transformation sig' rho phi).
  { unfold gen_galaxy_transformation, galaxy_T, galaxy_G, re_deg.
    rewrite (Rmax_left (1 / 30) sig) by exact Hs.
    rewrite (Rmax_left (1 / 30) sig') by exact Hs'.
    reflexivity. }
  rewrite E. reflexivity.
Qed.



(** *** Failures of the likelihood and of the profile images *)

Lemma unpack4_short (th : list R) :
  (length th < 4)%nat -> unpack4 (slice th 0 4) = inl ValueError.
Proof.
  intros H.
  destruct th as [| a [| b [| c [| d rest]]]]; simpl in H;
    try lia; reflexivity.
Qed.

(** X10: a parameter vector of fewer than four entries makes the
    likelihood, the gradient and [gen_galaxy_psf_image] fail with the
    [ValueError] of the unpacking of [th[0:4]], before anything else is
    computed. *)
Theorem short_parameter_vector_fails (th u : list R) (Z_s : list ndarray)
    (images : list FitsImage) (img : FitsImage) (co un : bool) :
  (length th < 4)%nat ->
  galaxy_source_like th Z_s images co un = inl ValueError /\
  galaxy_source_like_grad th Z_s images co un = inl ValueError /\
  gen_galaxy_psf_image th u img co un = inl ValueError.
Proof.
  intros H.
  unfold galaxy_source_like, galaxy_source_like_grad, gen_galaxy_psf_image.
  rewrite (unpack4_short th H). repeat split.
Qed.

(** The loop of the likelihood over a well-formed prefix of the images. *)
Lemma like_loop_prefix (flux : string -> R) (theta : R) (Rm : mat2)
    (u : list R) (pre Zs post : list ndarray)
    (imgs more : list FitsImage) (ll : R) :
  Forall2 counts_match Zs imgs ->
  like_loop theta Rm u (map (fun k => (k, flux k)) BANDS)
            (pre ++ Zs ++ post) (length pre) (imgs ++ more) ll
  = like_loop theta Rm u (map (fun k => (k, flux k)) BANDS)
              (pre ++ Zs ++ post) (length pre + length Zs) more
              (ll + loglike_spec flux theta Rm u Zs imgs).
Proof.
  intros H. revert pre ll.
  induction H as [| Z img Zs imgs HZ HF IH]; intros pre ll.
  - cbn [app length]. rewrite Nat.add_0_r. f_equal.
    unfold loglike_spec; simpl. ring.
  - destruct (counts_match_shape Z img HZ) as [Hr Hc].
    destruct HZ as [Hok _].
    cbn [like_loop app].
    rewrite (prof_image_exp Rm u img Hok), (prof_image_dev Rm u img Hok).
    cbn [bind]. unfold mix_profiles.
    rewrite broadcast_same_shape by same_shape. cbn [bind].
    rewrite (dict_get_bands flux (band img)) by apply Hok. cbn [bind].
    rewrite getitem_app. cbn [bind].
    rewrite broadcast_same_shape by same_shape. cbn [bind].
    rewrite broadcast_same_shape by same_shape. cbn [bind].
    destruct (prefix_step pre Z (Zs ++ post)) as [-> ->].
    rewrite IH.
    replace (length (pre ++ [Z]) + length Zs)%nat
      with (length pre + length (Z :: Zs))%nat
      by (rewrite length_app; simpl; lia).
    f_equal.
    unfold loglike_spec. cbn [combine map fst snd]. rewrite sum_list_cons.
    rewrite Rplus_assoc. f_equal. f_equal.
    unfold np_sum, image_loglike, sum_pixels, density_shape.
    cbn [nrows ncols item amap fst snd].
    rewrite Hr, Hc.
    apply sum_grid_ext; intros i j Hi Hj.
    in_bounds i j.
    unfold lam_spec, f_mix. reflexivity.
Qed.

Lemma getitem_end {A : Type} (l : list A) :
  getitem l (length l) = inl IndexError.
Proof.
  unfold getitem.
  replace (nth_error l (length l)) with (@None A); [reflexivity |].
  symmetry. apply nth_error_None. lia.
Qed.

Lemma dict_get_not_band (v : string -> R) (k : string) :
  ~ In k BANDS ->
  dict_get (map (fun k => (k, v k)) BANDS) k = inl (KeyError k).
Proof.
  intros H. unfold BANDS in H |- *. cbn [map dict_get].
  repeat match goal with
  | |- context [String.eqb ?b k] =>
      destruct (String.eqb_spec b k) as [E | _];
      [exfalso; apply H; rewrite <- E; simpl; auto 10 |]
  end.
  reflexivity.
Qed.

(** X11: with fewer count arrays than images, the likelihood fails with
    [IndexError] at the first image that has no array, after the images
    before it have been processed without failure. *)
Theorem galaxy_source_like_missing_counts
    (theta sig phi rho ux uy fu fg fr fi fz : R)
    (Z_s : list ndarray) (imgs : list FitsImage) (img : FitsImage)
    (rest : list FitsImage) (co un : bool) :
  rho <> 0 ->
  Forall2 counts_match Z_s imgs ->
  image_ok img ->
  galaxy_source_like [theta; sig; phi; rho; ux; uy; fu; fg; fr; fi; fz]
                     Z_s (imgs ++ img :: rest) co un
  = inl IndexError.
Proof.
  intros Hrho HF Hok.
  rewrite galaxy_source_like_unfold.
  rewrite gen_galaxy_transformation_closed by exact Hrho. cbn [bind].
  pose proof (like_loop_prefix (flux_of fu fg fr fi fz) theta
                (dot cd_inv (galaxy_G sig rho phi)) [ux; uy]
                [] Z_s [] imgs (img :: rest) 0 HF) as H.
  cbn [app length Nat.add] in H. rewrite app_nil_r in H. rewrite H.
  cbn [like_loop].
  rewrite (prof_image_exp _ _ img Hok), (prof_image_dev _ _ img Hok).
  cbn [bind]. unfold mix_profiles.
  rewrite broadcast_same_shape by same_shape. cbn [bind].
  rewrite (dict_get_bands _ (band img)) by apply Hok. cbn [bind].
  rewrite getitem_end. reflexivity.
Qed.

(** X12: an image whose band is not one of u, g, r, i, z makes the
    likelihood fail with [KeyError] on that band, once the images before
    it have been processed; the count arrays from that image on are not
    read. *)
Theorem galaxy_source_like_unknown_band
    (theta sig phi rho ux uy fu fg fr fi fz : R)
    (Z_s post : list ndarray) (imgs : list FitsImage) (img : FitsImage)
    (rest : list FitsImage) (co un : bool) :
  rho <> 0 ->
  Forall2 counts_match Z_s imgs ->
  length (pixel_grid img) = (nrows (nelec img) * ncols (nelec img))%nat ->
  ~ In (band img) BANDS ->
  galaxy_source_like [theta; sig; phi; rho; ux; uy; fu; fg; fr; fi; fz]
                     (Z_s ++ post) (imgs ++ img :: rest) co un
  = inl (KeyError (band img)).
Proof.
  intros Hrho HF Hlen Hband.
  rewrite galaxy_source_like_unfold.
  rewrite gen_galaxy_transformation_closed by exact Hrho. cbn [bind].
  pose proof (like_loop_prefix (flux_of fu fg fr fi fz) theta
                (dot cd_inv (galaxy_G sig rho phi)) [ux; uy]
                [] Z_s post imgs (img :: rest) 0 HF) as H.
  cbn [app length Nat.add] in H. rewrite H.
  cbn [like_loop].
  rewrite (prof_image_registered "exp" get_exp_mixture _ _ img
             eq_refl eq_refl Hlen).
  rewrite (prof_image_registered "dev" get_dev_mixture _ _ img
             eq_refl eq_refl Hlen).
  cbn [bind]. unfold mix_profiles.
  rewrite broadcast_same_shape by same_shape. cbn [bind].
  rewrite (dict_get_not_band _ (band img) Hband). reflexivity.
Qed.

(** X13: for the profiles "exp" and "dev", [gen_galaxy_prof_psf_image]
    returns an image of the shape of [nelec] transposed when the pixel grid
    has one row per entry of [nelec], and fails with the [ValueError] of
    [reshape] otherwise. *)
Theorem gen_galaxy_prof_psf_image_shape (prof_type : string) (Rm : mat2)
    (u : list R) (img : FitsImage) :
  prof_type = "exp"%string \/ prof_type = "dev"%string ->
  (length (pixel_grid img) = (nrows (nelec img) * ncols (nelec img))%nat ->
   exists A, gen_galaxy_prof_psf_image prof_type Rm u img = inr A /\
             shape A = (ncols (nelec img), nrows (nelec img))) /\
  (length (pixel_grid img) <> (nrows (nelec img) * ncols (nelec img))%nat ->
   gen_galaxy_prof_psf_image prof_type Rm u img = inl ValueError).
Proof.
  intros Hk. split.
  - intros Hlen. destruct Hk as [-> | ->].
    + eexists. split.
      * apply (prof_image_registered "exp" get_exp_mixture);
          [reflexivity | reflexivity | exact Hlen].
      * reflexivity.
    + eexists. split.
      * apply (prof_image_registered "dev" get_dev_mixture);
          [reflexivity | reflexivity | exact Hlen].
      * reflexivity.
  - intros Hlen.
    assert (Hgen : forall k prof,
      has_key galaxy_prof_dict k = true ->
      dict_get galaxy_prof_dict k = inr prof ->
      gen_galaxy_prof_psf_image k Rm u img = inl ValueError).
    { intros k prof Hhas Hget. unfold gen_galaxy_prof_psf_image.
      rewrite Hhas, Hget. simpl.
      destruct (gen_galaxy_prof_psf_mixture_params _ _ _ _ _ _ _)
        as [[ws mus] sigs].
      unfold reshape. rewrite fast_gmm_like_length.
      destruct (Nat.eqb_spec (length (pixel_grid img))
                  (nrows (nelec img) * ncols (nelec img))) as [E | _];
        [contradiction | reflexivity]. }
    destruct Hk as [-> | ->].
    + apply (Hgen "exp"%string get_exp_mixture); reflexivity.
    + apply (Hgen "dev"%string get_dev_mixture); reflexivity.
Qed.


(** *** The likelihood as a sum over the images *)

Lemma loglike_spec_app (flux : string -> R) (theta : R) (Rm : mat2)
    (u : list R) (Z1 Z2 : list ndarray) (imgs1 imgs2 : list FitsImage) :
  Forall2 counts_match Z1 imgs1 ->
  loglike_spec flux theta Rm u (Z1 ++ Z2) (imgs1 ++ imgs2)
  = loglike_spec flux theta Rm u Z1 imgs1
    + loglike_spec flux theta Rm u Z2 imgs2.
Proof.
  intros H. induction H as [| Z img Z1 imgs1 _ _ IH].
  - unfold loglike_spec at 2. simpl. ring.
  - unfold loglike_spec in *. cbn [app combine map fst snd].
    rewrite !sum_list_cons, IH. ring.
Qed.

Lemma sum_list_permutation (l l' : list R) :
  Permutation l l' -> sum_list l = sum_list l'.
Proof.
  intros H. induction H; simpl.
  - reflexivity.
  - rewrite IHPermutation. reflexivity.
  - ring.
  - congruence.
Qed.

Lemma combine_fst_snd {A B : Type} (ps : list (A * B)) :
  combine (map fst ps) (map snd ps) = ps.
Proof.
  induction ps as [| [a b] ps IH]; simpl; [| rewrite IH]; reflexivity.
Qed.

Lemma counts_match_pairs (ps : list (ndarray * FitsImage)) :
  Forall (fun p => counts_match (fst p) (snd p)) ps ->
  Forall2 counts_match (map fst ps) (map snd ps).
Proof.
  intros H. induction H; simpl; constructor; assumption.
Qed.

(** X14: the likelihood is additive over the images: on well-formed
    inputs, the likelihood of two lists of images put end to end is the sum
    of the likelihoods of the two lists, and the likelihood of no image
    is 0. *)
Theorem galaxy_source_like_additive
    (theta sig phi rho ux uy fu fg fr fi fz : R)
    (Z1 Z2 : list ndarray) (imgs1 imgs2 : list FitsImage) (co un : bool) :
  let th := [theta; sig; phi; rho; ux; uy; fu; fg; fr; fi; fz] in
  rho <> 0 ->
  Forall2 counts_match Z1 imgs1 ->
  Forall2 counts_match Z2 imgs2 ->
  galaxy_source_like th [] [] co un = inr 0 /\
  exists l1 l2,
    galaxy_source_like th Z1 imgs1 co un = inr l1 /\
    galaxy_source_like th Z2 imgs2 co un = inr l2 /\
    galaxy_source_like th (Z1 ++ Z2) (imgs1 ++ imgs2) co un
    = inr (l1 + l2).
Proof.
  intros th Hrho H1 H2. subst th. split.
  - rewrite galaxy_source_like_spec by (try assumption; constructor).
    reflexivity.
  - do 2 eexists. split; [| split].
    + apply galaxy_source_like_spec; assumption.
    + apply galaxy_source_like_spec; assumption.
    + rewrite galaxy_source_like_spec
        by (try assumption; apply Forall2_app; assumption).
      f_equal. apply loglike_spec_app; assumption.
Qed.

(** X15: the likelihood does not depend on the order of the images: on
    well-formed inputs, listing the pairs of a count array and its image
    in another order gives the same value. *)
Theorem galaxy_source_like_permutation
    (theta sig phi rho ux uy fu fg fr fi fz : R)
    (ps ps' : list (ndarray * FitsImage)) (co un : bool) :
  let th := [theta; sig; phi; rho; ux; uy; fu; fg; fr; fi; fz] in
  rho <> 0 ->
  Forall (fun p => counts_match (fst p) (snd p)) ps ->
  Permutation ps ps' ->
  exists l,
    galaxy_source_like th (map fst ps) (map snd ps) co un = inr l /\
    galaxy_source_like th (map fst ps') (map snd ps') co un = inr l.
Proof.
  intros th Hrho HF HP. subst th.
  assert (HF' : Forall (fun p => counts_match (fst p) (snd p)) ps').
  { apply (Permutation_Forall HP). exact HF. }
  eexists. split.
  - apply galaxy_source_like_spec;
      [exact Hrho | apply counts_match_pairs; exact HF].
  - rewrite galaxy_source_like_spec
      by (try exact Hrho; apply counts_match_pairs; exact HF').
    f_equal. unfold loglike_spec. rewrite !combine_fst_snd.
    apply sum_list_permutation, Permutation_map, Permutation_sym, HP.
Qed.

(** X16: the likelihood reads the five fluxes only at the bands of the
    images: two flux vectors that agree on the band of every image give
    the same value on well-formed inputs. *)
Theorem galaxy_source_like_unused_fluxes
    (theta sig phi rho ux uy fu fg fr fi fz fu' fg' fr' fi' fz' : R)
    (Z_s : list ndarray) (images : list FitsImage) (co un : bool) :
  rho <> 0 ->
  Forall2 counts_match Z_s images ->
  (forall img, In img images ->
     flux_of fu fg fr fi fz (band img)
     = flux_of fu' fg' fr' fi' fz' (band img)) ->
  galaxy_source_like [theta; sig; phi; rho; ux; uy; fu; fg; fr; fi; fz]
                     Z_s images co un
  = galaxy_source_like
      [theta; sig; phi; rho; ux; uy; fu'; fg'; fr'; fi'; fz']
      Z_s images co un.
Proof.
  intros Hrho HF Hflux.
  rewrite !galaxy_source_like_spec by assumption.
  f_equal. unfold loglike_spec. f_equal.
  apply map_ext_in. intros [Z img] Hin. cbn [fst snd].
  apply in_combine_r in Hin.
  unfold image_loglike, lam_spec.
  rewrite (Hflux img Hin). reflexivity.
Qed.

(** X17: on a well-formed image and a parameter vector with a non-zero
    axis ratio, [gen_galaxy_psf_image] returns the image whose entries are
    [theta * f_exp + (1 - theta) * f_dev], in the shape of the density
    images: the mixture image of the likelihood. *)
Theorem gen_galaxy_psf_image_mixture
    (theta sig phi rho ux uy fu fg fr fi fz : R) (u : list R)
    (img : FitsImage) (co un : bool) :
  rho <> 0 ->
  image_ok img ->
  exists A,
    gen_galaxy_psf_image [theta; sig; phi; rho; ux; uy; fu; fg; fr; fi; fz]
                         u img co un = inr A /\
    shape A = density_shape img /\
    forall i j, (i < nrows A)%nat -> (j < ncols A)%nat ->
      item A i j
      = f_mix theta (dot cd_inv (galaxy_G sig rho phi)) [ux; uy] img i j.
Proof.
  intros Hrho Hok.
  unfold gen_galaxy_psf_image.
  cbn [slice Nat.sub firstn skipn unpack4 bind ret].
  rewrite gen_galaxy_transformation_closed by exact Hrho. cbn [bind].
  rewrite (prof_image_exp _ _ img Hok), (prof_image_dev _ _ img Hok).
  cbn [bind]. unfold mix_profiles.
  rewrite broadcast_same_shape by same_shape. cbn [bind].
  eexists. split; [reflexivity |]. split; [reflexivity |].
  cbn [nrows ncols item amap]. intros i j Hi Hj.
  in_bounds i j. reflexivity.
Qed.


(** *** The output of the gradient *)

(** A step of a computation that returned has returned itself. *)
Ltac bind_inv H :=
  match type of H with
  | bind ?c _ = inr _ =>
      let v := fresh "v" in
      let E := fresh "E" in
      destruct c as [? | v] eqn:E; [discriminate H | cbn [bind] in H]
  end.

Lemma length_update (l : list R) (i : nat) (v : R) :
  (i < length l)%nat ->
  length (firstn i l ++ v :: skipn (S i) l) = length l.
Proof.
  intros Hi. rewrite length_app, length_firstn.
  change (length (v :: skipn (S i) l)) with (S (length (skipn (S i) l))).
  rewrite length_skipn. lia.
Qed.

Lemma setitem_length (l : list R) (i : nat) (v : R) (l' : list R) :
  setitem l i v = inr l' -> length l' = length l.
Proof.
  unfold setitem. destruct (Nat.ltb_spec i (length l)) as [Hi | _];
    [| discriminate].
  intros H. injection H as <-. apply length_update. exact Hi.
Qed.

Lemma numerical_loop_length (th : list R) (Z_s : list ndarray)
    (images : list FitsImage) (co un : bool) (inds : list (nat * nat)) :
  forall g0 g,
    numerical_loop th Z_s images co un inds g0 = inr g ->
    length g = length g0.
Proof.
  induction inds as [| [i th_i] rest IH]; intros g0 g H;
    cbn [numerical_loop] in H.
  - injection H as <-. reflexivity.
  - do 5 bind_inv H.
    rewrite (IH _ _ H).
    exact (setitem_length _ _ _ _ E3).
Qed.

Lemma dict_values_length (d : dict R) (keys : list string) :
  forall vs, dict_values d keys = inr vs -> length vs = length keys.
Proof.
  induction keys as [| k keys IH]; intros vs H; cbn [dict_values] in H.
  - injection H as <-. reflexivity.
  - do 2 bind_inv H. injection H as <-.
    cbn [length]. f_equal. apply IH. reflexivity.
Qed.

(** X18: whenever the gradient returns, its output has exactly eleven
    entries: one for theta, five finite differences and one per band,
    whatever the length of the parameter vector it was given. *)
Theorem galaxy_source_like_grad_length (th : list R) (Z_s : list ndarray)
    (images : list FitsImage) (co un : bool) (g : list R) :
  galaxy_source_like_grad th Z_s images co un = inr g ->
  length g = 11%nat.
Proof.
  intros H. unfold galaxy_source_like_grad in H.
  bind_inv H. destruct v as [[[theta_s sig_s] phi_s] rho_s].
  bind_inv H. cbv zeta in H.
  bind_inv H. destruct v0 as [grad_theta_s grad_bs].
  do 2 bind_inv H. injection H as <-.
  cbn [length]. rewrite length_app.
  rewrite (numerical_loop_length _ _ _ _ _ _ _ _ E2).
  rewrite (dict_values_length _ _ _ E3).
  reflexivity.
Qed.

Lemma galaxy_source_like_rho_zero
    (theta sig phi rho ux uy fu fg fr fi fz : R)
    (Z_s : list ndarray) (images : list FitsImage) (co un : bool) :
  rho = 0 ->
  galaxy_source_like [theta; sig; phi; rho; ux; uy; fu; fg; fr; fi; fz]
                     Z_s images co un
  = inl LinAlgError.
Proof.
  intros ->. rewrite galaxy_source_like_unfold.
  rewrite gen_galaxy_transformation_singular. reflexivity.
Qed.

(** X19: at the axis ratio rho = 1e-5, which lies in the domain (0,1), the
    likelihood returns on well-formed inputs but the gradient fails with
    [LinAlgError]: its backward step in rho evaluates the likelihood at an
    axis ratio of 0. *)
Theorem galaxy_source_like_grad_fails_at_step
    (theta sig phi ux uy fu fg fr fi fz : R)
    (Z_s : list ndarray) (images : list FitsImage) (co un : bool) :
  let th := [theta; sig; phi; 1e-5; ux; uy; fu; fg; fr; fi; fz] in
  Forall2 counts_match Z_s images ->
  (exists l, galaxy_source_like th Z_s images co un = inr l) /\
  galaxy_source_like_grad th Z_s images co un = inl LinAlgError.
Proof.
  intros th HF. subst th.
  assert (Hrho : 1e-5 <> 0) by lra.
  split.
  - eexists. apply galaxy_source_like_spec; assumption.
  - rewrite galaxy_source_like_grad_unfold. cbv zeta.
    rewrite gen_galaxy_transformation_closed by exact Hrho. cbn [bind].
    rewrite (grad_loop_spec (flux_of fu fg fr fi fz) theta _ [ux; uy] []
               Z_s images 0 (fun _ => 0) HF).
    cbn [bind]. run_indices.
    rewrite !Rplus_0_r, !Rminus_0_r. unfold Rminus.
    rewrite (galaxy_source_like_spec theta (sig + 1e-5)) by assumption.
    cbn [bind].
    rewrite (galaxy_source_like_spec theta (sig + - (1e-5))) by assumption.
    cbn [bind].
    rewrite (galaxy_source_like_spec theta sig (phi + 1e-5)) by assumption.
    cbn [bind].
    rewrite (galaxy_source_like_spec theta sig (phi + - (1e-5)))
      by assumption.
    cbn [bind].
    rewrite (galaxy_source_like_spec theta sig phi (1e-5 + 1e-5))
      by (try assumption; lra).
    cbn [bind].
    rewrite (galaxy_source_like_rho_zero theta sig phi (1e-5 + - (1e-5)))
      by lra.
    reflexivity.
Qed.


(** *** The parameter transforms and the unconstrained prior *)

(** X20: the unconstrained prior is never positive, and it is 0 at the
    origin only: the origin is its unique maximiser. *)
Theorem galaxy_shape_prior_unconstrained_maximum (a b c d : R) :
  galaxy_shape_prior_unconstrained a b c d <= 0 /\
  (galaxy_shape_prior_unconstrained a b c d = 0
   <-> a = 0 /\ b = 0 /\ c = 0 /\ d = 0).
Proof.
  unfold galaxy_shape_prior_unconstrained.
  pose proof (Rle_0_sqr a) as Ha. pose proof (Rle_0_sqr b) as Hb.
  pose proof (Rle_0_sqr c) as Hc. pose proof (Rle_0_sqr d) as Hd.
  unfold Rsqr in *.
  split; [lra |]. split.
  - intros H.
    assert (Ea : a * a = 0) by lra. assert (Eb : b * b = 0) by lra.
    assert (Ec : c * c = 0) by lra. assert (Ed : d * d = 0) by lra.
    repeat split; apply Rsqr_0_uniq; assumption.
  - intros (-> & -> & -> & ->). lra.
Qed.

(** X21: both parameter transforms read the first four entries of their
    argument and nothing else: on fewer than four entries they fail with
    [IndexError], and on four or more the result is that of the first
    four. *)
Theorem parameter_transforms_read_four_entries (th : list R) :
  ((length th < 4)%nat ->
   constrain_params th = inl IndexError /\
   unconstrain_params th = inl IndexError) /\
  ((4 <= length th)%nat ->
   constrain_params th = constrain_params (firstn 4 th) /\
   unconstrain_params th = unconstrain_params (firstn 4 th) /\
   exists x, constrain_params th = inr x /\ length x = 4%nat).
Proof.
  split; intros H.
  - destruct th as [| a [| b [| c [| d rest]]]]; simpl in H; try lia;
      split; reflexivity.
  - destruct th as [| a [| b [| c [| d rest]]]]; simpl in H; try lia.
    split; [reflexivity |]. split; [reflexivity |].
    eexists. split; reflexivity.
Qed.


(** *** The gradient at an axis ratio of one step *)


End Galaxy.

(** ** The theorems at the small instance *)

Lemma example_gmm_like_2d_length (probs : list R) (x : list (list R))
    (ws : list R) (mus : list (list R)) (sigs : list mat2) :
  length (example_gmm_like_2d probs x ws mus sigs) = length probs.
Proof. apply length_map. Defined.

Lemma example_counts_match :
  Forall2 counts_match [example_counts] [example_image].
Proof.
  constructor; [| constructor].
  split; [split |].
  - simpl. auto.
  - reflexivity.
  - reflexivity.
Defined.

Lemma example_in_domain : in_domain (1 / 2) 1 (PI / 2) (1 / 2).
Proof.
  unfold in_domain. pose proof PI_RGT_0. repeat split; lra.
Defined.

Lemma gen_galaxy_transformation_returns_Tinv_example :
  exists Ginv T Tinv,
    linalg_inv (galaxy_G 1 (1 / 2) (PI / 2)) = inr Ginv /\
    T = dot Ginv cd /\
    galaxy_T 1 (1 / 2) (PI / 2) = inr T /\
    linalg_inv T = inr Tinv /\
    gen_galaxy_transformation 1 (1 / 2) (PI / 2) = inr Tinv /\
    dot T Tinv = identity /\ dot Tinv T = identity.
Proof.
  pose proof PI_RGT_0.
  apply (gen_galaxy_transformation_returns_Tinv 1 (1 / 2) (PI / 2)); lra.
Defined.

Lemma Rdiv_1_eq (a b : R) : a * b = 1 -> 1 / a = b.
Proof.
  intros H.
  assert (Ha : a <> 0) by (intros ->; lra).
  apply (Rmult_eq_reg_l a); [| exact Ha].
  rewrite H. field. exact Ha.
Qed.

Lemma galaxy_G_example :
  galaxy_G 1 (1 / 2) (PI / 2) = Mat2 0 (1 / 7200) (- (1 / 3600)) 0.
Proof.
  unfold galaxy_G, mscale, re_deg; simpl.
  rewrite cos_PI2, sin_PI2, Rmax_right by lra.
  apply mat2_eq; lra.
Qed.

Lemma galaxy_T_example :
  galaxy_T 1 (1 / 2) (PI / 2) = inr (Mat2 0 (- (0.396)) 0.792 0).
Proof.
  unfold galaxy_T. rewrite galaxy_G_example.
  unfold linalg_inv, det2d; simpl.
  destruct (Req_dec_T _ 0) as [E | _]; [exfalso; lra |].
  unfold bind, raise, ret, dot, mscale, cd; simpl.
  rewrite (Rdiv_1_eq _ 25920000) by lra.
  f_equal. apply mat2_eq; lra.
Qed.

(** At sigma = 1, rho = 1/2, phi = pi/2: [T] is 0.396 * [[0, -1], [2, 0]],
    the value returned is its inverse (1/0.396) * [[0, 1/2], [-1, 0]], and
    the two differ: the function does not return [T]. *)
Lemma gen_galaxy_transformation_does_not_return_T :
  galaxy_T 1 (1 / 2) (PI / 2) = inr (Mat2 0 (- (0.396)) 0.792 0) /\
  gen_galaxy_transformation 1 (1 / 2) (PI / 2)
  = inr (Mat2 0 (1 / 0.792) (- (1 / 0.396)) 0) /\
  gen_galaxy_transformation 1 (1 / 2) (PI / 2)
  <> galaxy_T 1 (1 / 2) (PI / 2).
Proof.
  assert (Egen : gen_galaxy_transformation 1 (1 / 2) (PI / 2)
                 = inr (Mat2 0 (1 / 0.792) (- (1 / 0.396)) 0)).
  { rewrite gen_galaxy_transformation_closed by lra.
    rewrite galaxy_G_example.
    unfold dot, cd_inv; simpl. f_equal. apply mat2_eq; lra. }
  split; [exact galaxy_T_example |]. split; [exact Egen |].
  rewrite Egen, galaxy_T_example. intros E.
  injection E as E1 E2. lra.
Qed.





Lemma gen_galaxy_prof_psf_image_unknown_profile_example :
  gen_galaxy_prof_psf_image example_mixture example_mixture
    example_mixture_params example_gmm_like_2d
    "sersic" identity [0; 0] example_image
  = inl UnknownProfileType
  /\ gen_galaxy_prof_psf_image example_mixture example_mixture
       example_mixture_params example_gmm_like_2d
       "dev" identity [0; 0] example_image
     <> inl UnknownProfileType.
Proof.
  split.
  - apply (proj1 (gen_galaxy_prof_psf_image_unknown_profile
                    example_mixture example_mixture
                    example_mixture_params example_gmm_like_2d
                    "sersic" identity [0; 0] example_image));
      intros E; discriminate E.
  - apply (proj2 (gen_galaxy_prof_psf_image_unknown_profile
                    example_mixture example_mixture
                    example_mixture_params example_gmm_like_2d
                    "dev" identity [0; 0] example_image)).
    right; reflexivity.
Defined.

Lemma galaxy_shape_prior_constrained_domain_example :
  galaxy_shape_prior_constrained example_lnpdf (1 / 2) 1 (PI / 2) (1 / 2)
  = Finite (example_lnpdf (1 * 1) 1 1)
  /\ galaxy_shape_prior_constrained example_lnpdf 1 1 (PI / 2) (1 / 2)
     = NegInf.
Proof.
  split.
  - apply (proj2 (galaxy_shape_prior_constrained_domain
                    example_lnpdf (1 / 2) 1 (PI / 2) (1 / 2))).
    exact example_in_domain.
  - apply (proj1 (galaxy_shape_prior_constrained_domain
                    example_lnpdf 1 1 (PI / 2) (1 / 2))).
    unfold in_domain. intros [[_ H] _]. lra.
Defined.

(** *** The instance by hand

    The one pixel has density 1 under both profiles, so [f = 1], [lam = 1],
    and with 3 observed counts the log-likelihood is [3 * log 1 - 1 = -1],
    whatever the shape and the location.  The gradient is then 0 in theta
    ([f_exp - f_dev = 0]), 0 in the five differenced entries, and
    [(1/1) * 3 - 1 = 2] for the flux of band r. *)

Lemma example_likelihood_value (sig phi rho ux uy : R) (co un : bool) :
  rho <> 0 ->
  galaxy_source_like example_mixture example_mixture
    example_mixture_params example_gmm_like_2d
    [1 / 2; sig; phi; rho; ux; uy; 1; 1; 1; 1; 1]
    [example_counts] [example_image] co un
  = inr (-1).
Proof.
  intros Hrho.
  rewrite (galaxy_source_like_spec example_mixture example_mixture
             example_mixture_params example_gmm_like_2d
             example_gmm_like_2d_length)
    by (try assumption; exact example_counts_match).
  f_equal.
  unfold loglike_spec, image_loglike, sum_pixels, sum_grid, lam_spec, f_mix,
    f_exp, f_dev, prof_density, sum_list.
  cbn.
  replace (1 / 1 * 1 * (1 / 2 * 1 + (1 - 1 / 2) * 1)) with 1 by lra.
  rewrite ln_1. lra.
Qed.

Example example_likelihood :
  galaxy_source_like example_mixture example_mixture
    example_mixture_params example_gmm_like_2d
    example_th [example_counts] [example_image] true true
  = inr (-1).
Proof. apply example_likelihood_value. lra. Qed.

Example example_gradient :
  galaxy_source_like_grad example_mixture example_mixture
    example_mixture_params example_gmm_like_2d
    example_th [example_counts] [example_image] true false
  = inr [0; 0; 0; 0; 0; 0; 0; 0; 2; 0; 0].
Proof.
  unfold example_th.
  rewrite galaxy_source_like_grad_unfold. cbv zeta.
  rewrite gen_galaxy_transformation_closed by lra. cbn [bind].
  rewrite (grad_loop_spec example_mixture example_mixture
             example_mixture_params example_gmm_like_2d
             example_gmm_like_2d_length
             (flux_of 1 1 1 1 1) (1 / 2) _ [0; 0] []
             [example_counts] [example_image] 0 (fun _ => 0)
             example_counts_match).
  cbn [bind].
  rewrite (numerical_loop_spec example_mixture example_mixture
             example_mixture_params example_gmm_like_2d
             (1 / 2) 1 (PI / 2) (1 / 2) 0 0 1 1 1 1 1
             [example_counts] [example_image] true false
             (fun _ => -1) (fun _ => -1)).
  - cbn [bind]. rewrite dict_values_bands. cbn [bind app map BANDS].
    unfold ret, grad_theta_spec, grad_flux_spec, image_grad_theta,
      image_grad_flux, sum_pixels, sum_grid, np_sum, f_mix, f_exp, f_dev,
      prof_density, sum_list.
    cbn.
    repeat (apply f_equal2; [try lra |]); try reflexivity.
    f_equal. repeat (apply f_equal2; [try lra |]); reflexivity.
  - intros i Hi.
    assert (Hc : i = 1%nat \/ i = 2%nat \/ i = 3%nat \/ i = 4%nat \/ i = 5%nat)
      by lia.
    destruct Hc as [-> | [-> | [-> | [-> | ->]]]];
      cbn [enumerate combine seq length map fst snd shifted Nat.eqb];
      apply example_likelihood_value; lra.
  - intros i Hi.
    assert (Hc : i = 1%nat \/ i = 2%nat \/ i = 3%nat \/ i = 4%nat \/ i = 5%nat)
      by lia.
    destruct Hc as [-> | [-> | [-> | [-> | ->]]]];
      cbn [enumerate combine seq length map fst snd shifted Nat.eqb];
      apply example_likelihood_value; lra.
Qed.

(** ** The further properties at the small instance *)

Lemma example_image_ok : image_ok example_image.
Proof. split; [simpl; auto | reflexivity]. Defined.

Lemma gen_galaxy_transformation_entries_example :
  gen_galaxy_transformation 1 (1 / 2) (PI / 2)
  = inr (Mat2 (Rmax (1 / 30) 1 / 0.396 * cos (PI / 2))
              (Rmax (1 / 30) 1 / 0.396 * (sin (PI / 2) * (1 / 2)))
              (- (Rmax (1 / 30) 1 / 0.396 * sin (PI / 2)))
              (Rmax (1 / 30) 1 / 0.396 * (cos (PI / 2) * (1 / 2)))).
Proof. apply gen_galaxy_transformation_entries. lra. Defined.

Lemma gen_galaxy_transformation_floor_example :
  gen_galaxy_transformation (1 / 100) (1 / 2) (PI / 2)
  = gen_galaxy_transformation (1 / 30) (1 / 2) (PI / 2).
Proof. apply gen_galaxy_transformation_floor. lra. Defined.

Lemma shape_covariance_positive_definite_example :
  let W := dot (dot cd_inv (galaxy_G 1 (1 / 2) (PI / 2)))
               (transpose (dot cd_inv (galaxy_G 1 (1 / 2) (PI / 2)))) in
  m01 W = m10 W /\ 0 < m00 W /\ 0 < det2d W.
Proof.
  apply (shape_covariance_positive_definite 1 (1 / 2) (PI / 2)).
  apply gen_galaxy_transformation_closed. lra.
Defined.

Lemma inv2d_inverts_the_transpose_example :
  dot (transpose (Mat2 1 2 0 1)) (inv2d (Mat2 1 2 0 1)) = identity /\
  dot (inv2d (Mat2 1 2 0 1)) (transpose (Mat2 1 2 0 1)) = identity /\
  (dot (Mat2 1 2 0 1) (inv2d (Mat2 1 2 0 1)) = identity
   <-> m01 (Mat2 1 2 0 1) = m10 (Mat2 1 2 0 1)).
Proof.
  apply inv2d_inverts_the_transpose. unfold det2d; simpl. lra.
Defined.

Lemma galaxy_source_like_radius_floor_example :
  galaxy_source_like example_mixture example_mixture
    example_mixture_params example_gmm_like_2d
    [1 / 2; 1 / 100; PI / 2; 1 / 2; 0; 0; 1; 1; 1; 1; 1]
    [example_counts] [example_image] true true
  = galaxy_source_like example_mixture example_mixture
      example_mixture_params example_gmm_like_2d
      [1 / 2; 1 / 30; PI / 2; 1 / 2; 0; 0; 1; 1; 1; 1; 1]
      [example_counts] [example_image] true true.
Proof. apply galaxy_source_like_radius_floor; lra. Defined.


Lemma short_parameter_vector_fails_example :
  galaxy_source_like example_mixture example_mixture
    example_mixture_params example_gmm_like_2d
    [1 / 2; 1; PI / 2] [example_counts] [example_image] true true
  = inl ValueError /\
  galaxy_source_like_grad example_mixture example_mixture
    example_mixture_params example_gmm_like_2d
    [1 / 2; 1; PI / 2] [example_counts] [example_image] true true
  = inl ValueError /\
  gen_galaxy_psf_image example_mixture example_mixture
    example_mixture_params example_gmm_like_2d
    [1 / 2; 1; PI / 2] [0; 0] example_image true true
  = inl ValueError.
Proof. apply short_parameter_vector_fails. simpl. lia. Defined.

Lemma galaxy_source_like_missing_counts_example :
  galaxy_source_like example_mixture example_mixture
    example_mixture_params example_gmm_like_2d
    example_th [example_counts] ([example_image] ++ example_image :: [])
    true true
  = inl IndexError.
Proof.
  apply (galaxy_source_like_missing_counts
           example_mixture example_mixture
           example_mixture_params example_gmm_like_2d
           example_gmm_like_2d_length).
  - lra.
  - exact example_counts_match.
  - exact example_image_ok.
Defined.

Lemma galaxy_source_like_unknown_band_example :
  galaxy_source_like example_mixture example_mixture
    example_mixture_params example_gmm_like_2d
    example_th ([example_counts] ++ [example_counts])
    ([example_image] ++ example_image_y :: []) true true
  = inl (KeyError "y").
Proof.
  apply (galaxy_source_like_unknown_band
           example_mixture example_mixture
           example_mixture_params example_gmm_like_2d
           example_gmm_like_2d_length
           (1 / 2) 1 (PI / 2) (1 / 2) 0 0 1 1 1 1 1
           [example_counts] [example_counts] [example_image]
           example_image_y [] true true).
  - lra.
  - exact example_counts_match.
  - reflexivity.
  - unfold BANDS; simpl. intros H.
    repeat (destruct H as [H | H]; [discriminate H |]). exact H.
Defined.

Lemma gen_galaxy_prof_psf_image_shape_example :
  (exists A,
     gen_galaxy_prof_psf_image example_mixture example_mixture
       example_mixture_params example_gmm_like_2d
       "exp" identity [0; 0] example_image = inr A /\
     shape A = (1%nat, 1%nat)) /\
  gen_galaxy_prof_psf_image example_mixture example_mixture
    example_mixture_params example_gmm_like_2d
    "dev" identity [0; 0] example_image_grid
  = inl ValueError.
Proof.
  split.
  - apply (proj1 (gen_galaxy_prof_psf_image_shape
                    example_mixture example_mixture
                    example_mixture_params example_gmm_like_2d
                    example_gmm_like_2d_length
                    "exp" identity [0; 0] example_image
                    (or_introl eq_refl))).
    reflexivity.
  - apply (proj2 (gen_galaxy_prof_psf_image_shape
                    example_mixture example_mixture
                    example_mixture_params example_gmm_like_2d
                    example_gmm_like_2d_length
                    "dev" identity [0; 0] example_image_grid
                    (or_intror eq_refl))).
    simpl. intros H. discriminate H.
Defined.

Lemma galaxy_source_like_additive_example :
  galaxy_source_like example_mixture example_mixture
    example_mixture_params example_gmm_like_2d
    example_th [] [] true true = inr 0 /\
  exists l1 l2,
    galaxy_source_like example_mixture example_mixture
      example_mixture_params example_gmm_like_2d
      example_th [example_counts] [example_image] true true = inr l1 /\
    galaxy_source_like example_mixture example_mixture
      example_mixture_params example_gmm_like_2d
      example_th [example_counts] [example_image] true true = inr l2 /\
    galaxy_source_like example_mixture example_mixture
      example_mixture_params example_gmm_like_2d
      example_th ([example_counts] ++ [example_counts])
      ([example_image] ++ [example_image]) true true
    = inr (l1 + l2).
Proof.
  apply (galaxy_source_like_additive
           example_mixture example_mixture
           example_mixture_params example_gmm_like_2d
           example_gmm_like_2d_length
           (1 / 2) 1 (PI / 2) (1 / 2) 0 0 1 1 1 1 1
           [example_counts] [example_counts]
           [example_image] [example_image] true true).
  - lra.
  - exact example_counts_match.
  - exact example_counts_match.
Defined.

Lemma galaxy_source_like_permutation_example :
  exists l,
    galaxy_source_like example_mixture example_mixture
      example_mixture_params example_gmm_like_2d
      example_th
      (map fst [(Array2 1 1 (fun _ _ => 5), example_image);
                (example_counts, example_image)])
      (map snd [(Array2 1 1 (fun _ _ => 5), example_image);
                (example_counts, example_image)]) true true = inr l /\
    galaxy_source_like example_mixture example_mixture
      example_mixture_params example_gmm_like_2d
      example_th
      (map fst [(example_counts, example_image);
                (Array2 1 1 (fun _ _ => 5), example_image)])
      (map snd [(example_counts, example_image);
                (Array2 1 1 (fun _ _ => 5), example_image)]) true true
    = inr l.
Proof.
  apply (galaxy_source_like_permutation
           example_mixture example_mixture
           example_mixture_params example_gmm_like_2d
           example_gmm_like_2d_length
           (1 / 2) 1 (PI / 2) (1 / 2) 0 0 1 1 1 1 1).
  - lra.
  - constructor; [exact (conj example_image_ok eq_refl) |].
    constructor; [exact (conj example_image_ok eq_refl) |].
    constructor.
  - apply perm_swap.
Defined.

Lemma galaxy_source_like_unused_fluxes_example :
  galaxy_source_like example_mixture example_mixture
    example_mixture_params example_gmm_like_2d
    [1 / 2; 1; PI / 2; 1 / 2; 0; 0; 1; 1; 1; 1; 1]
    [example_counts] [example_image] true true
  = galaxy_source_like example_mixture example_mixture
      example_mixture_params example_gmm_like_2d
      [1 / 2; 1; PI / 2; 1 / 2; 0; 0; 7; 1; 1; 1; 9]
      [example_counts] [example_image] true true.
Proof.
  apply (galaxy_source_like_unused_fluxes
           example_mixture example_mixture
           example_mixture_params example_gmm_like_2d
           example_gmm_like_2d_length).
  - lra.
  - exact example_counts_match.
  - intros img [<- | []]. reflexivity.
Defined.

Lemma gen_galaxy_psf_image_mixture_example :
  exists A,
    gen_galaxy_psf_image example_mixture example_mixture
      example_mixture_params example_gmm_like_2d
      example_th [5; 5] example_image true true = inr A /\
    shape A = density_shape example_image /\
    forall i j, (i < nrows A)%nat -> (j < ncols A)%nat ->
      item A i j
      = f_mix example_mixture example_mixture
          example_mixture_params example_gmm_like_2d
          (1 / 2) (dot cd_inv (galaxy_G 1 (1 / 2) (PI / 2))) [0; 0]
          example_image i j.
Proof.
  apply (gen_galaxy_psf_image_mixture
           example_mixture example_mixture
           example_mixture_params example_gmm_like_2d
           example_gmm_like_2d_length
           (1 / 2) 1 (PI / 2) (1 / 2) 0 0 1 1 1 1 1).
  - lra.
  - exact example_image_ok.
Defined.

Lemma galaxy_source_like_grad_length_example :
  length [0; 0; 0; 0; 0; 0; 0; 0; 2; 0; 0] = 11%nat.
Proof.
  apply (galaxy_source_like_grad_length
           example_mixture example_mixture
           example_mixture_params example_gmm_like_2d
           example_th [example_counts] [example_image] true false).
  exact example_gradient.
Defined.

Lemma galaxy_source_like_grad_fails_at_step_example :
  (exists l,
     galaxy_source_like example_mixture example_mixture
       example_mixture_params example_gmm_like_2d
       [1 / 2; 1; PI / 2; 1e-5; 0; 0; 1; 1; 1; 1; 1]
       [example_counts] [example_image] true false = inr l) /\
  galaxy_source_like_grad example_mixture example_mixture
    example_mixture_params example_gmm_like_2d
    [1 / 2; 1; PI / 2; 1e-5; 0; 0; 1; 1; 1; 1; 1]
    [example_counts] [example_image] true false
  = inl LinAlgError.
Proof.
  apply (galaxy_source_like_grad_fails_at_step
           example_mixture example_mixture
           example_mixture_params example_gmm_like_2d
           example_gmm_like_2d_length).
  exact example_counts_match.
Defined.

Lemma parameter_transforms_read_four_entries_example :
  (constrain_params [0; 1; 2] = inl IndexError /\
   unconstrain_params [0; 1; 2] = inl IndexError) /\
  (constrain_params [0; 1; 2; 3; 4]
   = constrain_params (firstn 4 [0; 1; 2; 3; 4]) /\
   unconstrain_params [0; 1; 2; 3; 4]
   = unconstrain_params (firstn 4 [0; 1; 2; 3; 4]) /\
   exists x, constrain_params [0; 1; 2; 3; 4] = inr x /\ length x = 4%nat).
Proof.
  split.
  - apply (proj1 (parameter_transforms_read_four_entries [0; 1; 2])).
    simpl. lia.
  - apply (proj2 (parameter_transforms_read_four_entries [0; 1; 2; 3; 4])).
    simpl. lia.
Defined.

(** ** Inputs on which the claims, as first stated, fail *)




